(** * A shallow embedding of the tree walker [Dizzy] of
    src/atopile/model2/datamodel1.py, together with the pieces of
    [atopile.model2.types], [atopile.model2.scope2] and
    [atopile.model2.errors] it calls.

    Those three modules are modelled from the design description; their
    definitions below are marked "Modelled from the spec:".  The walker's
    current scope ([self.scope]) is part of the walker state. *)

From Stdlib Require Import String Ascii ZArith List Bool QArith Lia.
Import ListNotations.
Set Warnings "-register-all".


(* ------------------------------------------------------------------ *)
(** ** Python's [int(text)] on ASCII text *)

Module PyInt.

(** Characters [str.strip] and [int] treat as white space (ASCII part). *)
Definition is_space (c : ascii) : bool :=
  let n := nat_of_ascii c in
  ((9 <=? n) && (n <=? 13) || (28 <=? n) && (n <=? 32))%nat.

Definition is_digit (c : ascii) : bool :=
  let n := nat_of_ascii c in ((48 <=? n) && (n <=? 57))%nat.

Definition digit_val (c : ascii) : Z := Z.of_nat (nat_of_ascii c - 48)%nat.

Fixpoint strip_left (l : list ascii) : list ascii :=
  match l with
  | c :: r => if is_space c then strip_left r else l
  | [] => []
  end.

Definition strip (l : list ascii) : list ascii :=
  rev (strip_left (rev (strip_left l))).

(** Decimal digits, a single [_] allowed between two digits. *)
Fixpoint digits (l : list ascii) (acc : Z) (need_digit : bool) : option Z :=
  match l with
  | [] => if need_digit then None else Some acc
  | c :: r =>
      if is_digit c then digits r (acc * 10 + digit_val c)%Z false
      else if Ascii.eqb c "_"%char && negb need_digit then digits r acc true
      else None
  end.

(** The number of digit characters of a text. *)
Definition count_digits (l : list ascii) : nat := length (filter is_digit l).

(** CPython's default [sys.int_info.default_max_str_digits]: [int()] of
    a decimal text with more digits raises [ValueError]. *)
Definition max_str_digits : Z := 4300.

(** [int(s)] for a [str] argument in base 10: surrounding white space,
    an optional sign, then digits, at most [max_str_digits] of them.
    [None] stands for [ValueError]. *)
Definition py_int (s : string) : option Z :=
  let l := strip (list_ascii_of_string s) in
  if (max_str_digits <? Z.of_nat (count_digits l))%Z then None else
  match l with
  | "+"%char :: r => digits r 0 true
  | "-"%char :: r => option_map Z.opp (digits r 0 true)
  | l => digits l 0 true
  end.

End PyInt.
Import PyInt.

(* ------------------------------------------------------------------ *)
(** ** Keys, values and the entity store *)

(** A name as [visitName] returns it: an [int] or a [str]. *)
Inductive key : Type :=
| KInt (z : Z)
| KStr (s : string).

Definition key_eqb (a b : key) : bool :=
  match a, b with
  | KInt x, KInt y => Z.eqb x y
  | KStr x, KStr y => String.eqb x y
  | _, _ => false
  end.

(** Python truthiness of a name: [0] and [""] are falsy. *)
Definition key_falsy (k : key) : bool :=
  match k with
  | KInt z => Z.eqb z 0
  | KStr s => String.eqb s ""
  end.

(** Modelled from the spec: the type descriptor an [types.Attribute]
    carries in [type_]: a [types.Class] instance (the class of an
    Object), the class [types.Class] itself (for class-valued
    attributes), or a primitive Python type. *)
Inductive tydesc : Type :=
| TyClass (c : nat)
| TyClassTag
| TyInt
| TyFloat
| TyStr
| TyBool.

(** Modelled from the spec: the values a scope binds.  Classes and
    Objects live in the store and are referred to by index, so that they
    are shared as Python shares them; a [Scope] is referred to by its
    index in the frame store. *)
Inductive value : Type :=
| VClass (c : nat)
| VObject (o : nat)
| VAttr (ty : tydesc) (v : value)
| VScope (f : nat)
| VInt (z : Z)
| VFloat (q : Q)
| VStr (s : string)
| VBool (b : bool)
| VNone.

(** Modelled from the spec: a [types.Class]: a name, at most one super
    class, and its members. *)
Record class_rec : Type := mkClass {
  c_name : key;
  c_super : option nat;
  c_locals : list (key * value)
}.

(** Modelled from the spec: a [types.Object]: its class [type_], its own
    members, and the [start]/[end] fields a [LinkObject] is given. *)
Record obj_rec : Type := mkObj {
  o_type : nat;
  o_locals : list (key * value);
  o_start : option value;
  o_end : option value
}.

(** Modelled from the spec: a [scope2.Scope]: the entity it is rooted at
    (if any), its parent scope, its own name table (in insertion order)
    and its anonymous members. *)
Record frame : Type := mkFrame {
  f_root : option value;
  f_parent : option nat;
  f_table : list (key * value);
  f_anon : list value
}.

(** The walker state: the class, object and scope stores, and
    [self.scope]. *)
Record state : Type := mkState {
  classes : list class_rec;
  objects : list obj_rec;
  frames : list frame;
  cur : nat
}.

(** Built-in classes, at fixed places of the class store. *)
Definition MODULE_C := 0%nat.
Definition COMPONENT_C := 1%nat.
Definition INTERFACE_C := 2%nat.
Definition PIN_C := 3%nat.
Definition SIGNAL_C := 4%nat.
Definition LINK_C := 5%nat.

Definition builtin_classes : list class_rec :=
  [ mkClass (KStr "Module") None [];
    mkClass (KStr "Component") (Some MODULE_C) [];
    mkClass (KStr "Interface") None [];
    mkClass (KStr "Pin") (Some INTERFACE_C) [];
    mkClass (KStr "Signal") (Some INTERFACE_C) [];
    mkClass (KStr "Link") None [] ].

(* ------------------------------------------------------------------ *)
(** ** Errors and the walker monad *)

(** The [AtoTypeError]s raised by the walker, one per raise site. *)
Inductive type_error : Type :=
| TE_not_integer (text : string)
| TE_not_obj_or_class (segment : key)
| TE_not_class_super
| TE_super_not_allowed
| TE_not_interface
| TE_unknown_link
| TE_not_initialisable (k : key)
| TE_retype_not_object (k : key)
| TE_retype_not_class (k : key)
| TE_retype_not_subclass (obj target : key).

Inductive err : Type :=
| AtoTypeError (e : type_error)
| AtoNameConflictError (k : key)
| AtoCompileError
| NameNotFound (k : key)
| NotImplementedError
| PyTypeError
| PyAttributeError
| PyIndexError
| UnboundLocalError.

(** A walker step: Python exceptions do not undo the mutations made
    before them, so the state is returned on both outcomes. *)
Definition M (A : Type) : Type := state -> (err + A) * state.

Definition ret {A} (a : A) : M A := fun s => (inr a, s).
Definition raise {A} (e : err) : M A := fun s => (inl e, s).
Definition bind {A B} (m : M A) (k : A -> M B) : M B :=
  fun s => match m s with
           | (inl e, s') => (inl e, s')
           | (inr a, s') => k a s'
           end.
Definition get : M state := fun s => (inr s, s).
Definition put (s : state) : M unit := fun _ => (inr tt, s).

Notation "x <- m ;; k" := (bind m (fun x => k))
  (at level 61, m at next level, right associativity).
Notation "' p <- m ;; k" := (bind m (fun x => match x with p => k end))
  (at level 61, p pattern, m at next level, right associativity).

Definition cur_scope : M nat := fun s => (inr (cur s), s).

(* ------------------------------------------------------------------ *)
(** ** Store operations *)

Fixpoint assoc (k : key) (l : list (key * value)) : option value :=
  match l with
  | [] => None
  | (k', v) :: r => if key_eqb k k' then Some v else assoc k r
  end.

Fixpoint upd_nth {A} (n : nat) (f : A -> A) (l : list A) : list A :=
  match l, n with
  | [], _ => []
  | x :: r, O => f x :: r
  | x :: r, S m => x :: upd_nth m f r
  end.

(** Modelled from the spec: a member lookup along a class's resolution
    chain (the class, then its super class, and so on). *)
Fixpoint class_lookup (cs : list class_rec) (fuel c : nat) (k : key)
  : option value :=
  match fuel with
  | O => None
  | S n =>
      match nth_error cs c with
      | None => None
      | Some r =>
          match assoc k (c_locals r) with
          | Some v => Some v
          | None =>
              match c_super r with
              | Some p => class_lookup cs n p k
              | None => None
              end
          end
      end
  end.

(** Modelled from the spec: [is_subclass_of(candidate, ancestor)], true
    when [ancestor] is on [candidate]'s super chain (reflexively). *)
Fixpoint subclass_chain (cs : list class_rec) (fuel c anc : nat) : bool :=
  match fuel with
  | O => false
  | S n =>
      Nat.eqb c anc ||
      match nth_error cs c with
      | Some r =>
          match c_super r with
          | Some p => subclass_chain cs n p anc
          | None => false
          end
      | None => false
      end
  end.

Definition is_subclass_of (s : state) (c anc : nat) : bool :=
  subclass_chain (classes s) (S (length (classes s))) c anc.

Definition obj_type (s : state) (o : nat) : option nat :=
  option_map o_type (nth_error (objects s) o).

(** Modelled from the spec: the members of the entity a scope is rooted
    at: an Object's own members, then those of its class chain; a Class's
    members along its chain. *)
Definition root_lookup (s : state) (r : value) (k : key) : option value :=
  let cs := classes s in
  match r with
  | VClass c => class_lookup cs (length cs) c k
  | VObject o =>
      match nth_error (objects s) o with
      | Some ob =>
          match assoc k (o_locals ob) with
          | Some v => Some v
          | None => class_lookup cs (length cs) (o_type ob) k
          end
      | None => None
      end
  | _ => None
  end.

(** Modelled from the spec: a lookup in one scope alone (no ancestors). *)
Definition here_lookup (s : state) (f : nat) (k : key) : option value :=
  match nth_error (frames s) f with
  | None => None
  | Some fr =>
      match assoc k (f_table fr) with
      | Some v => Some v
      | None =>
          match f_root fr with
          | Some r => root_lookup s r k
          | None => None
          end
      end
  end.

(** Modelled from the spec: [lookup]: this scope, then each ancestor. *)
Fixpoint chain_lookup (s : state) (fuel f : nat) (k : key) : option value :=
  match fuel with
  | O => None
  | S n =>
      match here_lookup s f k with
      | Some v => Some v
      | None =>
          match nth_error (frames s) f with
          | Some fr =>
              match f_parent fr with
              | Some p => chain_lookup s n p k
              | None => None
              end
          | None => None
          end
      end
  end.

Definition lookup_in (s : state) (f : nat) (k : key) : option value :=
  chain_lookup s (length (frames s)) f k.

(** [scope[k]]. *)
Definition scope_get (f : nat) (k : key) : M value :=
  fun s => match lookup_in s f k with
           | Some v => (inr v, s)
           | None => (inl (NameNotFound k), s)
           end.

(** [k in scope]. *)
Definition scope_contains (f : nat) (k : key) : M bool :=
  fun s => (inr (match lookup_in s f k with Some _ => true | None => false end), s).

Definition map_frames (g : list frame -> list frame) (s : state) : state :=
  mkState (classes s) (objects s) (g (frames s)) (cur s).

Definition map_objects (g : list obj_rec -> list obj_rec) (s : state) : state :=
  mkState (classes s) (g (objects s)) (frames s) (cur s).

Definition map_classes (g : list class_rec -> list class_rec) (s : state) : state :=
  mkState (g (classes s)) (objects s) (frames s) (cur s).

(** [scope[k] = v]: modelled from the spec's [define], which fails with
    NameConflict when [k] is already defined in this very scope. *)
Definition scope_set (f : nat) (k : key) (v : value) : M unit :=
  fun s => match here_lookup s f k with
           | Some _ => (inl (AtoNameConflictError k), s)
           | None =>
               (inr tt, map_frames (upd_nth f (fun fr =>
                  mkFrame (f_root fr) (f_parent fr) (f_table fr ++ [(k, v)])
                          (f_anon fr))) s)
           end.

(** [scope.append_anon(v)]. *)
Definition append_anon (f : nat) (v : value) : M unit :=
  fun s => (inr tt, map_frames (upd_nth f (fun fr =>
              mkFrame (f_root fr) (f_parent fr) (f_table fr)
                      (f_anon fr ++ [v]))) s).

(** Modelled from the spec: [Scope(x)], a fresh scope rooted at [x],
    with no parent. *)
Definition new_scope_over (x : value) : M nat :=
  fun s => (inr (length (frames s)),
            map_frames (fun fs => fs ++ [mkFrame (Some x) None [] []]) s).

(** Modelled from the spec: [cls.make_instance()]. *)
Definition make_instance (c : nat) : M value :=
  fun s => (inr (VObject (length (objects s))),
            map_objects (fun os => os ++ [mkObj c [] None None]) s).

(** Modelled from the spec: [types.Class.make_subclass(name, parent)]. *)
Definition make_subclass (name : key) (parent : value) : M value :=
  match parent with
  | VClass p =>
      fun s => (inr (VClass (length (classes s))),
                map_classes (fun cs => cs ++ [mkClass name (Some p) []]) s)
  | _ => raise (AtoTypeError TE_not_class_super)
  end.

(** [obj.type_ = target]. *)
Definition set_obj_type (o c : nat) : M unit :=
  fun s => (inr tt, map_objects (upd_nth o (fun r =>
              mkObj c (o_locals r) (o_start r) (o_end r))) s).

Definition set_start (o : nat) (v : value) : M unit :=
  fun s => (inr tt, map_objects (upd_nth o (fun r =>
              mkObj (o_type r) (o_locals r) (Some v) (o_end r))) s).

Definition set_end (o : nat) (v : value) : M unit :=
  fun s => (inr tt, map_objects (upd_nth o (fun r =>
              mkObj (o_type r) (o_locals r) (o_start r) (Some v))) s).

(** Modelled from the spec: [isinstance(v, types.InterfaceObject)]: an
    instance of a class on [Interface]'s chain (Pin and Signal are). *)
Definition is_interface_object (s : state) (v : value) : bool :=
  match v with
  | VObject o =>
      match obj_type s o with
      | Some t => is_subclass_of s t INTERFACE_C
      | None => false
      end
  | _ => false
  end.

(** Modelled from the spec: [isinstance(v, types.LinkObject)]. *)
Definition is_link_object (s : state) (v : value) : bool :=
  match v with
  | VObject o =>
      match obj_type s o with
      | Some t => is_subclass_of s t LINK_C
      | None => false
      end
  | _ => false
  end.

(* ------------------------------------------------------------------ *)
(** ** The datamodel1 records (datamodel1.py, lines 26-61) *)

Definition Ref := list key.

Record dm_link : Type := mkLink { source : Ref; target : Ref }.
Record dm_replace : Type := mkReplace { original : Ref; replacement : Ref }.
Record dm_import : Type := mkImport { what : Ref; from_ : string }.

(** [Object]: [supers], [links], [replace], [imports], [locals_]. *)
Inductive dm_object : Type :=
| DMObject (supers : list dm_object) (links : list dm_link)
           (replace : list dm_replace) (imports : list dm_import)
           (locals_ : list (key * dm_any))
with dm_any : Type :=
| DA_object (o : dm_object)
| DA_link (l : dm_link)
| DA_int (z : Z)
| DA_str (s : string).

Definition dm_supers (o : dm_object) : list dm_object :=
  match o with DMObject su _ _ _ _ => su end.
Definition dm_links (o : dm_object) : list dm_link :=
  match o with DMObject _ l _ _ _ => l end.
Definition dm_locals (o : dm_object) : list (key * dm_any) :=
  match o with DMObject _ _ _ _ lo => lo end.

Definition MODULE : dm_object := DMObject [] [] [] [] [].
Definition COMPONENT : dm_object := DMObject [MODULE] [] [] [] [].

(* ------------------------------------------------------------------ *)
(** ** The parse tree the walker visits *)

(** [name_or_attr]: a single name, or an [attr] (dotted names); names
    are token texts. *)
Inductive name_or_attr : Type :=
| NOA_name (t : string)
| NOA_attr (ts : list string).

(** [pindef_stmt]: [pin] followed by a [totally_an_integer] or a
    [name]. *)
Inductive pindef : Type :=
| PD_int (t : string)
| PD_name (t : string).

(** [connectable].  A [numerical_pin_ref] is a [name_or_attr], a dot
    and a [totally_an_integer] (the integer's token text). *)
Inductive connectable : Type :=
| CN_noa (n : name_or_attr)
| CN_pinref (n : name_or_attr) (t : string)
| CN_pindef (p : pindef)
| CN_signaldef (t : string).

(** [assignable].  A [NUMBER] carries the value [float()] reads from
    its text (as an exact rational). *)
Inductive assignable : Type :=
| AS_noa (n : name_or_attr)
| AS_new (n : name_or_attr)
| AS_number (q : Q)
| AS_string (text : string)
| AS_bool (text : string).

Inductive stmt : Type :=
| S_pindef (p : pindef)
| S_signaldef (t : string)
| S_import (from_text : string) (n : name_or_attr)
| S_connect (a b : connectable)
| S_assign (n : name_or_attr) (a : assignable)
| S_retype (a b : name_or_attr)
| S_with
| S_block (name : string) (btype : string)
          (from_clause : option (option name_or_attr)) (body : list stmt).

Definition file_input : Type := list stmt.

(* ------------------------------------------------------------------ *)
(** ** The walker [Dizzy] (datamodel1.py, lines 110-391) *)

Module Dizzy.

Definition visitTotally_an_integer (text : string) : M key :=
  match py_int text with
  | Some z => ret (KInt z)
  | None => raise (AtoTypeError (TE_not_integer text))
  end.

Definition visitFile_input (ctx : file_input) : dm_object :=
  DMObject [MODULE] [] [] [] [].

Definition visitBlocktype (text : string) : M dm_object :=
  if String.eqb text "module" then ret MODULE
  else if String.eqb text "component" then ret COMPONENT
  else raise AtoCompileError.

Definition visitName (text : string) : key :=
  match py_int text with
  | Some z => KInt z
  | None => KStr text
  end.

Definition visitAttr (ts : list string) : list key := map visitName ts.

(** The loop over [path[:-1]] of [visitName_or_attr]. *)
Fixpoint descend (f : nat) (path : list key) : M nat :=
  match path with
  | [] => ret f
  | a :: rest =>
      v <- scope_get f a ;;
      f' <- match v with
            | VScope g => ret g
            | VClass _ | VObject _ => new_scope_over v
            | VAttr (TyClass _) held => new_scope_over held
            | _ => raise (AtoTypeError (TE_not_obj_or_class a))
            end ;;
      descend f' rest
  end.

Definition visitName_or_attr (n : name_or_attr) : M (nat * key) :=
  match n with
  | NOA_name t => f <- cur_scope ;; ret (f, visitName t)
  | NOA_attr ts =>
      f <- cur_scope ;;
      let path := visitAttr ts in
      g <- descend f (removelast path) ;;
      match rev path with
      | k :: _ => ret (g, k)
      | [] => raise PyIndexError
      end
  end.

(** [a, b = x] for [x] a datamodel1 [Object]: attrs does not make it
    iterable, so Python raises [TypeError]. *)
Definition unpack_pair (o : dm_object) : M (value * list value) :=
  raise PyTypeError.

(** [super_scope[super_name]] with the pair unpacked the other way round:
    a [str] or [int] indexed by a [Scope] raises [TypeError]. *)
Definition index_key_by_scope (k : key) (f : nat) : M value :=
  raise PyTypeError.

Definition class_in (v : value) (l : list value) : bool :=
  match v with
  | VClass c =>
      existsb (fun w => match w with VClass d => Nat.eqb c d | _ => false end) l
  | _ => false
  end.

(** [with self.new_scope(new_class)]: [Dizzy] has no [new_scope]. *)
Definition new_scope (c : value) : M unit := raise PyAttributeError.

Definition visitBlockdef (name btype : string)
    (from_clause : option (option name_or_attr)) (body : list stmt) : M value :=
  let new_class_name := visitName name in
  f <- cur_scope ;;
  b <- scope_contains f new_class_name ;;
  if b then raise (AtoNameConflictError new_class_name) else
  bt <- visitBlocktype btype ;;
  '(default_super, allowed_supers) <- unpack_pair bt ;;
  actual_super <-
    match from_clause with
    | Some None => raise AtoCompileError
    | Some (Some n) =>
        '(super_name, super_scope) <- visitName_or_attr n ;;
        actual <- index_key_by_scope super_scope super_name ;;
        match actual with
        | VClass _ =>
            if class_in actual allowed_supers then ret actual
            else raise (AtoTypeError TE_super_not_allowed)
        | _ => raise (AtoTypeError TE_not_class_super)
        end
    | None => ret default_super
    end ;;
  new_class <- make_subclass new_class_name actual_super ;;
  _ <- new_scope new_class ;;
  ret new_class.

Definition visitPindef_stmt (p : pindef) : M value :=
  name <- match p with
          | PD_int t => visitTotally_an_integer t
          | PD_name t => ret (visitName t)
          end ;;
  if key_falsy name then raise AtoCompileError else
  f <- cur_scope ;;
  b <- scope_contains f name ;;
  if b then raise (AtoNameConflictError name) else
  pin <- make_instance PIN_C ;;
  _ <- scope_set f name pin ;;
  ret pin.

Definition visitSignaldef_stmt (t : string) : M value :=
  let name := visitName t in
  if key_falsy name then raise AtoCompileError else
  f <- cur_scope ;;
  b <- scope_contains f name ;;
  if b then raise (AtoNameConflictError name) else
  signal <- make_instance INTERFACE_C ;;
  _ <- scope_set f name signal ;;
  ret signal.

(** [text.strip(...)] of the double and single quote characters. *)
Fixpoint strip_quotes_left (l : list ascii) : list ascii :=
  match l with
  | c :: r =>
      if Ascii.eqb c (ascii_of_nat 34) || Ascii.eqb c (ascii_of_nat 39)
      then strip_quotes_left r else l
  | [] => []
  end.

Definition visitString (text : string) : string :=
  string_of_list_ascii
    (rev (strip_quotes_left (rev (strip_quotes_left (list_ascii_of_string text))))).

Definition visitImport_stmt (from_text : string) (n : name_or_attr) : M unit :=
  let from_file := visitString from_text in
  '(sc, to_import) <- visitName_or_attr n ;;
  if String.eqb from_file "" then raise AtoCompileError else
  if key_falsy to_import then raise AtoCompileError else
  if key_eqb to_import (KStr "*") then raise NotImplementedError else
  f <- cur_scope ;;
  b <- scope_contains f to_import ;;
  if b then raise (AtoNameConflictError to_import) else
  v <- scope_get sc to_import ;;
  scope_set f to_import v.

(** The value [visitConnectable] resolves, before its checks. *)
Definition resolve_connectable (c : connectable) : M value :=
  match c with
  | CN_noa n => '(sc, k) <- visitName_or_attr n ;; scope_get sc k
  | CN_pinref n t =>
      (* [self.visit(ctx.numerical_pin_ref())]: Dizzy has no
         [visitNumerical_pin_ref], so the default [visitChildren] visits
         the children in turn and returns the last one's result. *)
      _ <- visitName_or_attr n ;;
      pin_ref <- visitTotally_an_integer t ;;
      f <- cur_scope ;; scope_get f pin_ref
  | CN_pindef p => visitPindef_stmt p
  | CN_signaldef t => visitSignaldef_stmt t
  end.

Definition unwrap_attr (v : value) : value :=
  match v with
  | VAttr _ held => held
  | _ => v
  end.

Definition visitConnectable (c : connectable) : M value :=
  v <- resolve_connectable c ;;
  let v' := unwrap_attr v in
  s <- get ;;
  if is_interface_object s v' then ret v'
  else raise (AtoTypeError TE_not_interface).

Definition visitConnect_stmt (a b : connectable) : M value :=
  start <- visitConnectable a ;;
  end_ <- visitConnectable b ;;
  link <- make_instance LINK_C ;;
  s <- get ;;
  if negb (is_link_object s link) then raise (AtoTypeError TE_unknown_link) else
  match link with
  | VObject l =>
      _ <- set_start l start ;;
      _ <- set_end l end_ ;;
      f <- cur_scope ;;
      _ <- append_anon f link ;;
      ret link
  | _ => raise (AtoTypeError TE_unknown_link)
  end.

Definition visitWith_stmt : M unit := raise NotImplementedError.

Definition visitNew_stmt (n : name_or_attr) : M value :=
  '(sc, k) <- visitName_or_attr n ;;
  to_init <- scope_get sc k ;;
  match to_init with
  | VClass c => make_instance c
  | _ => raise (AtoTypeError (TE_not_initialisable k))
  end.

Definition lower_ascii (c : ascii) : ascii :=
  let n := nat_of_ascii c in
  if ((65 <=? n) && (n <=? 90))%nat then ascii_of_nat (n + 32) else c.

Definition visitBoolean_ (text : string) : bool :=
  String.eqb (string_of_list_ascii (map lower_ascii (list_ascii_of_string text)))
             "true".

Definition visitAssignable (a : assignable) : M value :=
  match a with
  | AS_noa n => '(sc, k) <- visitName_or_attr n ;; scope_get sc k
  | AS_new n => visitNew_stmt n
  | AS_number q =>
      let r := Qred q in
      ret (if Pos.eqb (Qden r) 1 then VInt (Qnum r) else VFloat q)
  | AS_string t => ret (VStr (visitString t))
  | AS_bool t => ret (VBool (visitBoolean_ t))
  end.

Definition visitAssign_stmt (n : name_or_attr) (a : assignable) : M unit :=
  '(sc, k) <- visitName_or_attr n ;;
  v <- visitAssignable a ;;
  attr <- match v with
          | VObject o =>
              s <- get ;;
              match obj_type s o with
              | Some t => ret (VAttr (TyClass t) v)
              | None => raise PyAttributeError
              end
          | VClass _ => ret (VAttr TyClassTag v)
          | VAttr t held => ret (VAttr t held)
          | VInt _ => ret (VAttr TyInt v)
          | VFloat _ => ret (VAttr TyFloat v)
          | VStr _ => ret (VAttr TyStr v)
          | VBool _ => ret (VAttr TyBool v)
          | VScope _ | VNone => raise UnboundLocalError
          end ;;
  scope_set sc k attr.

Definition visitRetype_stmt (a b : name_or_attr) : M unit :=
  '(obj_scope, obj_name) <- visitName_or_attr a ;;
  '(target_scope, target_name) <- visitName_or_attr b ;;
  obj <- scope_get obj_scope obj_name ;;
  match obj with
  | VObject o =>
      target <- scope_get target_scope target_name ;;
      match target with
      | VClass c =>
          s <- get ;;
          match obj_type s o with
          | None => raise PyAttributeError
          | Some t =>
              if is_subclass_of s c t then set_obj_type o c
              else raise (AtoTypeError (TE_retype_not_subclass obj_name target_name))
          end
      | _ => raise (AtoTypeError (TE_retype_not_class target_name))
      end
  | _ => raise (AtoTypeError (TE_retype_not_object obj_name))
  end.

(** Dispatch of one statement to its handler. *)
Definition visit_stmt (st : stmt) : M unit :=
  match st with
  | S_pindef p => _ <- visitPindef_stmt p ;; ret tt
  | S_signaldef t => _ <- visitSignaldef_stmt t ;; ret tt
  | S_import ft n => visitImport_stmt ft n
  | S_connect a b => _ <- visitConnect_stmt a b ;; ret tt
  | S_assign n a => visitAssign_stmt n a
  | S_retype a b => visitRetype_stmt a b
  | S_with => visitWith_stmt
  | S_block n t fr body => _ <- visitBlockdef n t fr body ;; ret tt
  end.

Fixpoint visit_stmts (l : list stmt) : M unit :=
  match l with
  | [] => ret tt
  | st :: r => _ <- visit_stmt st ;; visit_stmts r
  end.

End Dizzy.

(* ------------------------------------------------------------------ *)
(** ** Scenarios *)

Module Scenario.

(** A library of classes: [Resistor] (a Component),
    [Resistor2] subclassing [Resistor], and [Capacitor]. *)
Definition RESISTOR_C := 6%nat.
Definition RESISTOR2_C := 7%nat.
Definition CAPACITOR_C := 8%nat.

Definition lib_classes : list class_rec :=
  builtin_classes ++
  [ mkClass (KStr "Resistor") (Some COMPONENT_C) [];
    mkClass (KStr "Resistor2") (Some RESISTOR_C) [];
    mkClass (KStr "Capacitor") (Some COMPONENT_C) [] ].

(** A file scope in which the three classes are bound. *)
Definition s_lib : state :=
  mkState lib_classes []
    [mkFrame None None
       [(KStr "Resistor", VClass RESISTOR_C);
        (KStr "Resistor2", VClass RESISTOR2_C);
        (KStr "Capacitor", VClass CAPACITOR_C)] []] 0.

(** An empty file scope. *)
Definition s_empty : state :=
  mkState builtin_classes [] [mkFrame None None [] []] 0.

Definition vdiv_body : list stmt :=
  [ S_signaldef "top"; S_signaldef "out"; S_signaldef "bottom";
    S_assign (NOA_name "r_top") (AS_new (NOA_name "Resistor"));
    S_assign (NOA_name "r_bottom") (AS_new (NOA_name "Resistor"));
    S_connect (CN_pinref (NOA_name "r_top") "2") (CN_noa (NOA_name "out"));
    S_connect (CN_pinref (NOA_name "r_bottom") "1") (CN_noa (NOA_name "out"));
    S_connect (CN_pinref (NOA_name "r_bottom") "2") (CN_noa (NOA_name "bottom")) ].

Definition vdiv_file : file_input := [S_block "VDiv" "module" None vdiv_body].

Definition pin_twice_file : file_input :=
  [S_block "M" "module" None [S_pindef (PD_name "p1"); S_pindef (PD_name "p1")]].

Definition retype_prog (target : string) : list stmt :=
  [ S_assign (NOA_name "dummy") (AS_new (NOA_name "Resistor"));
    S_retype (NOA_name "dummy") (NOA_name target) ].

(** [Alias = Resistor] binds an Attribute holding the class. *)
Definition alias_prog : list stmt :=
  [ S_assign (NOA_name "Alias") (AS_noa (NOA_name "Resistor")) ].

(** A pin [p] bound directly, and a class [PinX] subclassing [Pin]. *)
Definition PINX_C := 9%nat.

Definition s_pin : state :=
  mkState (lib_classes ++ [mkClass (KStr "PinX") (Some PIN_C) []])
    [mkObj PIN_C [] None None]
    [mkFrame None None [(KStr "p", VObject 0); (KStr "PinX", VClass PINX_C)] []] 0.

(** Two signals, [top] and [out], declared in an empty file scope. *)
Definition s_sig : state :=
  snd (Dizzy.visit_stmts [S_signaldef "top"; S_signaldef "out"] s_empty).

(** A pin [p] and the class [Pin] bound in a file scope. *)
Definition s_pin_cls : state :=
  mkState lib_classes [mkObj PIN_C [] None None]
    [mkFrame None None [(KStr "p", VObject 0); (KStr "Pin", VClass PIN_C)] []] 0.

(** A class [Resistor] whose members are its pins [1] and [2]; in the
    file scope, a signal [out] and [r_top = new Resistor]. *)
Definition s_rpins : state :=
  mkState (builtin_classes ++
             [mkClass (KStr "Resistor") (Some COMPONENT_C)
                [(KInt 1, VObject 0); (KInt 2, VObject 1)]])
    [mkObj PIN_C [] None None; mkObj PIN_C [] None None]
    [mkFrame None None [(KStr "Resistor", VClass RESISTOR_C)] []] 0.

Definition s_rtop : state :=
  snd (Dizzy.visit_stmts
         [S_signaldef "out";
          S_assign (NOA_name "r_top") (AS_new (NOA_name "Resistor"))] s_rpins).

(** The same, after [pin 2] is declared in the file scope itself. *)
Definition s_rtop_local : state :=
  snd (Dizzy.visit_stmts [S_pindef (PD_int "2")] s_rtop).

End Scenario.
Import Scenario.

(* ------------------------------------------------------------------ *)
(** ** Entities kept by a step *)

(** Every class and object of [s] is still in [s'], unchanged, and
    [self.scope] is the same. *)
Definition keeps_entities (s s' : state) : Prop :=
  (forall i r, nth_error (classes s) i = Some r -> nth_error (classes s') i = Some r) /\
  (forall i r, nth_error (objects s) i = Some r -> nth_error (objects s') i = Some r) /\
  cur s' = cur s.

Definition Preserving {A} (m : M A) : Prop :=
  forall s, keeps_entities s (snd (m s)).

(* ------------------------------------------------------------------ *)
(** ** Bindings kept by a step *)

(** Every class of [s] is in [s'] unchanged, and every object of [s] is
    in [s'] with the same class and own members (its [start] and [end]
    may have been set). *)
Definition same_members (s s' : state) : Prop :=
  (forall i r, nth_error (classes s) i = Some r -> nth_error (classes s') i = Some r) /\
  (forall i r, nth_error (objects s) i = Some r ->
     exists r', nth_error (objects s') i = Some r' /\
                o_type r' = o_type r /\ o_locals r' = o_locals r).

(** On top of that, every scope of [s] is still in [s'] with the same
    parent, and every name a scope binds itself (in its table or through
    the entity it is rooted at) is bound there to the same value. *)
Definition keeps_bindings (s s' : state) : Prop :=
  same_members s s' /\
  (forall f fr, nth_error (frames s) f = Some fr ->
     exists fr', nth_error (frames s') f = Some fr' /\ f_parent fr' = f_parent fr) /\
  (forall f k v, here_lookup s f k = Some v -> here_lookup s' f k = Some v).

Definition KeepsBindings {A} (m : M A) : Prop :=
  forall s, keeps_bindings s (snd (m s)).

(** Every scope rooted at an Object is rooted at an existing one. *)
Definition roots_exist (s : state) : Prop :=
  forall f fr o, nth_error (frames s) f = Some fr ->
    f_root fr = Some (VObject o) -> (o < length (objects s))%nat.

(** The built-in classes are at their places in the class store. *)
Definition builtins_loaded (s : state) : Prop :=
  forall i r, nth_error builtin_classes i = Some r -> nth_error (classes s) i = Some r.

(** The characters [visitString] strips: the double and the single
    quote. *)
Definition is_quote (c : ascii) : bool :=
  Ascii.eqb c (ascii_of_nat 34) || Ascii.eqb c (ascii_of_nat 39).

Definition starts_with_quote (l : list ascii) : bool :=
  match l with
  | c :: _ => is_quote c
  | [] => false
  end.

(** A text that neither starts nor ends with a quote character. *)
Definition unquoted_ends (s : string) : bool :=
  let l := list_ascii_of_string s in
  negb (starts_with_quote l) && negb (starts_with_quote (rev l)).

(* ------------------------------------------------------------------ *)
(** * Proofs *)

Open Scope nat_scope.

(** ** Lemmas on the store *)

Lemma nth_error_upd_nth_other {A} (l : list A) (n i : nat) (g : A -> A) :
  i <> n -> nth_error (upd_nth n g l) i = nth_error l i.
Proof.
  revert n i; induction l as [|x r IH]; intros n i Hne; [destruct n; reflexivity|].
  destruct n as [|n], i as [|i]; simpl; try reflexivity; try congruence.
  apply IH; lia.
Qed.

Lemma nth_error_upd_nth_same {A} (l : list A) (n : nat) (g : A -> A) :
  nth_error (upd_nth n g l) n = option_map g (nth_error l n).
Proof.
  revert n; induction l as [|x r IH]; intros [|n]; simpl; auto.
Qed.

Lemma nth_error_app_prefix {A} (l k : list A) i r :
  nth_error l i = Some r -> nth_error (l ++ k) i = Some r.
Proof.
  intros H. rewrite nth_error_app1; [exact H|].
  apply nth_error_Some; congruence.
Qed.

Lemma keeps_refl s : keeps_entities s s.
Proof. repeat split; auto. Qed.

Lemma keeps_trans s1 s2 s3 :
  keeps_entities s1 s2 -> keeps_entities s2 s3 -> keeps_entities s1 s3.
Proof. intros [A [B E1]] [C [D E2]]; repeat split; auto; congruence. Qed.

Lemma keeps_frames g s : keeps_entities s (map_frames g s).
Proof. repeat split; simpl; auto. Qed.

Lemma pres_bind {A B} (m : M A) (k : A -> M B) :
  Preserving m -> (forall a, Preserving (k a)) -> Preserving (bind m k).
Proof.
  intros Hm Hk s. unfold bind.
  specialize (Hm s). destruct (m s) as [[e|a] s'] eqn:E; simpl in *; auto.
  eapply keeps_trans; [exact Hm|]. apply Hk.
Qed.

Lemma pres_ret {A} (a : A) : Preserving (ret a).
Proof. intros s; apply keeps_refl. Qed.

Lemma pres_raise {A} (e : err) : Preserving (@raise A e).
Proof. intros s; apply keeps_refl. Qed.

Lemma pres_get : Preserving get.
Proof. intros s; apply keeps_refl. Qed.

Lemma pres_cur_scope : Preserving cur_scope.
Proof. intros s; apply keeps_refl. Qed.

Lemma pres_scope_get f k : Preserving (scope_get f k).
Proof. intros s; unfold scope_get; destruct (lookup_in s f k); apply keeps_refl. Qed.

Lemma pres_scope_contains f k : Preserving (scope_contains f k).
Proof. intros s; apply keeps_refl. Qed.

Lemma pres_scope_set f k v : Preserving (scope_set f k v).
Proof.
  intros s; unfold scope_set; destruct (here_lookup s f k);
    [apply keeps_refl | apply keeps_frames].
Qed.

Lemma pres_append_anon f v : Preserving (append_anon f v).
Proof. intros s; apply keeps_frames. Qed.

Lemma pres_new_scope_over x : Preserving (new_scope_over x).
Proof. intros s; apply keeps_frames. Qed.

Lemma pres_make_instance c : Preserving (make_instance c).
Proof.
  intros s; repeat split; simpl; auto. intros i r H; now apply nth_error_app_prefix.
Qed.

Lemma pres_make_subclass n p : Preserving (make_subclass n p).
Proof.
  intros s; unfold make_subclass; destruct p; try apply keeps_refl.
  repeat split; simpl; auto. intros i r H; now apply nth_error_app_prefix.
Qed.

Create HintDb pres.
#[local] Hint Resolve pres_ret pres_raise pres_get pres_cur_scope pres_scope_get
  pres_scope_contains pres_scope_set pres_append_anon pres_new_scope_over
  pres_make_instance pres_make_subclass : pres.

(** Split a handler into its steps, case on what each step returns. *)
Ltac pres_steps :=
  repeat first
    [ progress (auto with pres)
    | apply pres_bind; [| intros ?]
    | match goal with
      | |- Preserving (match ?x with _ => _ end) => destruct x
      | |- Preserving (if ?b then _ else _) => destruct b
      end ].

Lemma pres_descend f path : Preserving (Dizzy.descend f path).
Proof.
  revert f; induction path as [|a r IH]; intros f; simpl; pres_steps.
Qed.
#[local] Hint Resolve pres_descend : pres.

Lemma pres_visitName_or_attr n : Preserving (Dizzy.visitName_or_attr n).
Proof. unfold Dizzy.visitName_or_attr; destruct n; pres_steps. Qed.
#[local] Hint Resolve pres_visitName_or_attr : pres.

Lemma pres_visitPindef p : Preserving (Dizzy.visitPindef_stmt p).
Proof.
  unfold Dizzy.visitPindef_stmt, Dizzy.visitTotally_an_integer; pres_steps.
Qed.

Lemma pres_visitSignaldef t : Preserving (Dizzy.visitSignaldef_stmt t).
Proof. unfold Dizzy.visitSignaldef_stmt; pres_steps. Qed.
#[local] Hint Resolve pres_visitPindef pres_visitSignaldef : pres.

Lemma pres_visitImport ft n : Preserving (Dizzy.visitImport_stmt ft n).
Proof. unfold Dizzy.visitImport_stmt; pres_steps. Qed.

Lemma pres_visitConnectable c : Preserving (Dizzy.visitConnectable c).
Proof.
  unfold Dizzy.visitConnectable, Dizzy.resolve_connectable,
    Dizzy.visitTotally_an_integer; pres_steps.
Qed.
#[local] Hint Resolve pres_visitConnectable : pres.

(** The link a connect statement creates is fresh: setting its ends
    touches no entity that existed before. *)
Lemma pres_connect_tail start end_ :
  Preserving
    (link <- make_instance LINK_C ;;
     s <- get ;;
     if negb (is_link_object s link) then raise (AtoTypeError TE_unknown_link) else
     match link with
     | VObject l =>
         _ <- set_start l start ;;
         _ <- set_end l end_ ;;
         f <- cur_scope ;;
         _ <- append_anon f link ;;
         ret link
     | _ => raise (AtoTypeError TE_unknown_link)
     end).
Proof.
  intros s. unfold bind at 1; simpl.
  set (s1 := map_objects (fun os => os ++ [mkObj LINK_C [] None None]) s).
  assert (K1 : keeps_entities s s1) by apply pres_make_instance.
  unfold bind, get; simpl.
  match goal with |- context [if ?b then _ else _] => destruct b end; simpl;
    [exact K1|].
  destruct K1 as [K1c [K1o K1e]].
  repeat split; simpl; [exact K1c|].
  intros i r H.
  assert (Hi : i < length (objects s)) by (apply nth_error_Some; congruence).
  rewrite !nth_error_upd_nth_other by lia.
  apply K1o; exact H.
Qed.

Lemma pres_visitConnect a b : Preserving (Dizzy.visitConnect_stmt a b).
Proof.
  unfold Dizzy.visitConnect_stmt.
  apply pres_bind; [auto with pres| intros start].
  apply pres_bind; [auto with pres| intros end_].
  apply pres_connect_tail.
Qed.

Lemma pres_visitNew n : Preserving (Dizzy.visitNew_stmt n).
Proof. unfold Dizzy.visitNew_stmt; pres_steps. Qed.
#[local] Hint Resolve pres_visitNew : pres.

Lemma pres_visitAssign n a : Preserving (Dizzy.visitAssign_stmt n a).
Proof. unfold Dizzy.visitAssign_stmt, Dizzy.visitAssignable; pres_steps. Qed.

Lemma pres_visitBlockdef n t fr body :
  Preserving (Dizzy.visitBlockdef n t fr body).
Proof.
  unfold Dizzy.visitBlockdef, Dizzy.visitBlocktype, Dizzy.unpack_pair,
    Dizzy.index_key_by_scope, Dizzy.new_scope; pres_steps.
Qed.

(** Every statement but a retype keeps every existing class and object
    unchanged. *)
Lemma pres_visit_stmt_non_retype st :
  (forall a b, st <> S_retype a b) -> Preserving (Dizzy.visit_stmt st).
Proof.
  intros Hst. destruct st; simpl.
  - apply pres_bind; [apply pres_visitPindef | intros; apply pres_ret].
  - apply pres_bind; [apply pres_visitSignaldef | intros; apply pres_ret].
  - apply pres_visitImport.
  - apply pres_bind; [apply pres_visitConnect | intros; apply pres_ret].
  - apply pres_visitAssign.
  - exfalso; eapply Hst; reflexivity.
  - apply pres_raise.
  - apply pres_bind; [apply pres_visitBlockdef | intros; apply pres_ret].
Qed.

(** How a retype statement runs once both operands are resolved. *)
Lemma visitRetype_unfold a b s osc ok s1 tsc tk s2 :
  Dizzy.visitName_or_attr a s = (inr (osc, ok), s1) ->
  Dizzy.visitName_or_attr b s1 = (inr (tsc, tk), s2) ->
  Dizzy.visitRetype_stmt a b s =
  match lookup_in s2 osc ok with
  | None => (inl (NameNotFound ok), s2)
  | Some (VObject o) =>
      match lookup_in s2 tsc tk with
      | None => (inl (NameNotFound tk), s2)
      | Some (VClass c) =>
          match obj_type s2 o with
          | None => (inl PyAttributeError, s2)
          | Some t =>
              if is_subclass_of s2 c t then set_obj_type o c s2
              else (inl (AtoTypeError (TE_retype_not_subclass ok tk)), s2)
          end
      | Some _ => (inl (AtoTypeError (TE_retype_not_class tk)), s2)
      end
  | Some _ => (inl (AtoTypeError (TE_retype_not_object ok)), s2)
  end.
Proof.
  intros Ha Hb. unfold Dizzy.visitRetype_stmt, bind at 1. rewrite Ha.
  unfold bind at 1. rewrite Hb.
  unfold bind, scope_get.
  destruct (lookup_in s2 osc ok) as [v|]; [|reflexivity].
  destruct v; try reflexivity.
  destruct (lookup_in s2 tsc tk) as [w|]; [|reflexivity].
  destruct w; try reflexivity.
  unfold get; simpl. destruct (obj_type s2 o) as [t|]; [|reflexivity].
  destruct (is_subclass_of s2 c t); reflexivity.
Qed.

Lemma set_obj_type_effect o c s t :
  obj_type s o = Some t ->
  let s' := snd (set_obj_type o c s) in
  obj_type s' o = Some c /\
  (forall i, i <> o -> nth_error (objects s') i = nth_error (objects s) i) /\
  classes s' = classes s /\ frames s' = frames s /\ cur s' = cur s.
Proof.
  intros Ht; simpl. repeat split; auto.
  - unfold obj_type in *; simpl. rewrite nth_error_upd_nth_same.
    destruct (nth_error (objects s) o); [reflexivity | discriminate].
  - intros i Hi. now apply nth_error_upd_nth_other.
Qed.

Lemma upd_nth_last {A} (l : list A) (x : A) (g : A -> A) :
  upd_nth (length l) g (l ++ [x]) = l ++ [g x].
Proof. induction l as [|y r IH]; simpl; [reflexivity|]. now rewrite IH. Qed.

Lemma nth_error_last {A} (l : list A) (x : A) :
  nth_error (l ++ [x]) (length l) = Some x.
Proof. induction l as [|y r IH]; simpl; auto. Qed.

Lemma subclass_refl s c : is_subclass_of s c c = true.
Proof. unfold is_subclass_of; simpl. now rewrite Nat.eqb_refl. Qed.

Lemma here_lookup_lookup_in s f k v :
  here_lookup s f k = Some v -> lookup_in s f k = Some v.
Proof.
  intros H. unfold lookup_in.
  destruct (length (frames s)) as [|n] eqn:E.
  - apply length_zero_iff_nil in E. unfold here_lookup in H.
    rewrite E in H. destruct f; discriminate.
  - simpl. now rewrite H.
Qed.

Lemma visitName_or_attr_cur n s :
  cur (snd (Dizzy.visitName_or_attr n s)) = cur s.
Proof. apply (pres_visitName_or_attr n s). Qed.

(* ------------------------------------------------------------------ *)
(** ** Claims *)

(** C3: once both operands of a retype statement are resolved, a value
    that is not an Object fails with a TypeError, then a target that is
    not a Class fails with a TypeError, then a target that is not a
    subclass of the object's current [type_] fails with a TypeError;
    otherwise the object's [type_] is set to the target in place, and
    nothing else changes.  Every other statement leaves every existing
    class and object unchanged. *)
Theorem C3_retype_checks_then_sets_type :
  (forall a b s osc ok s1 tsc tk s2,
    Dizzy.visitName_or_attr a s = (inr (osc, ok), s1) ->
    Dizzy.visitName_or_attr b s1 = (inr (tsc, tk), s2) ->
    (forall v, lookup_in s2 osc ok = Some v -> (forall o, v <> VObject o) ->
       Dizzy.visitRetype_stmt a b s
       = (inl (AtoTypeError (TE_retype_not_object ok)), s2)) /\
    (forall o w, lookup_in s2 osc ok = Some (VObject o) ->
       lookup_in s2 tsc tk = Some w -> (forall c, w <> VClass c) ->
       Dizzy.visitRetype_stmt a b s
       = (inl (AtoTypeError (TE_retype_not_class tk)), s2)) /\
    (forall o c t, lookup_in s2 osc ok = Some (VObject o) ->
       lookup_in s2 tsc tk = Some (VClass c) -> obj_type s2 o = Some t ->
       is_subclass_of s2 c t = false ->
       Dizzy.visitRetype_stmt a b s
       = (inl (AtoTypeError (TE_retype_not_subclass ok tk)), s2)) /\
    (forall o c t, lookup_in s2 osc ok = Some (VObject o) ->
       lookup_in s2 tsc tk = Some (VClass c) -> obj_type s2 o = Some t ->
       is_subclass_of s2 c t = true ->
       exists s', Dizzy.visitRetype_stmt a b s = (inr tt, s') /\
         obj_type s' o = Some c /\
         (forall i, i <> o -> nth_error (objects s') i = nth_error (objects s2) i) /\
         classes s' = classes s2 /\ frames s' = frames s2 /\ cur s' = cur s2)) /\
  (forall st s, (forall a b, st <> S_retype a b) ->
     keeps_entities s (snd (Dizzy.visit_stmt st s))).
Proof.
  split.
  - intros a b s osc ok s1 tsc tk s2 Ha Hb.
    rewrite (visitRetype_unfold a b s osc ok s1 tsc tk s2 Ha Hb).
    split; [|split; [|split]].
    + intros v Hv Hno. rewrite Hv.
      destruct v; try reflexivity. exfalso; eapply Hno; reflexivity.
    + intros o w Ho Hw Hno. rewrite Ho, Hw.
      destruct w; try reflexivity. exfalso; eapply Hno; reflexivity.
    + intros o c t Ho Hc Ht Hsub. now rewrite Ho, Hc, Ht, Hsub.
    + intros o c t Ho Hc Ht Hsub. rewrite Ho, Hc, Ht, Hsub.
      exists (snd (set_obj_type o c s2)). split; [reflexivity|].
      exact (set_obj_type_effect o c s2 t Ht).
  - intros st s Hst. now apply pres_visit_stmt_non_retype.
Qed.

Lemma C3_witness :
  exists s', Dizzy.visitRetype_stmt (NOA_name "p") (NOA_name "PinX") s_pin = (inr tt, s')
             /\ obj_type s' 0 = Some PINX_C.
Proof.
  destruct (proj1 C3_retype_checks_then_sets_type (NOA_name "p") (NOA_name "PinX")
              s_pin 0 (KStr "p") s_pin 0 (KStr "PinX") s_pin eq_refl eq_refl)
    as [_ [_ [_ H]]].
  destruct (H 0 PINX_C PIN_C eq_refl eq_refl eq_refl eq_refl) as [s' [E [T _]]].
  exists s'. split; assumption.
Defined.

(** C1 (the code's behaviour): walking a file yields, for every file,
    the root Object with super Module and empty [locals_] and [links];
    for the VDiv file there is no VDiv in [locals_], and walking its
    block definition fails with a Python TypeError. *)
Theorem C1_file_walk_returns_empty_root :
  (forall ctx, Dizzy.visitFile_input ctx = DMObject [MODULE] [] [] [] []) /\
  dm_locals (Dizzy.visitFile_input vdiv_file) = [] /\
  dm_links (Dizzy.visitFile_input vdiv_file) = [] /\
  fst (Dizzy.visit_stmts vdiv_file s_lib) = inl PyTypeError.
Proof. repeat split; reflexivity. Qed.

(** C2 (the code's behaviour): a [module] or [component] block whose
    name is not bound fails with a Python TypeError when the result of
    [visitBlocktype] is unpacked, before any class is made or bound. *)
Theorem C2_blockdef_fails_at_unpack :
  forall name bt fr body s,
    lookup_in s (cur s) (Dizzy.visitName name) = None ->
    bt = "module"%string \/ bt = "component"%string ->
    Dizzy.visitBlockdef name bt fr body s = (inl PyTypeError, s).
Proof.
  intros name bt fr body s Hfree Hbt.
  unfold Dizzy.visitBlockdef, bind, cur_scope, scope_contains; simpl.
  rewrite Hfree.
  destruct Hbt as [-> | ->]; reflexivity.
Qed.

Lemma C2_witness :
  Dizzy.visitBlockdef "VDiv" "module" None vdiv_body s_lib = (inl PyTypeError, s_lib).
Proof.
  apply C2_blockdef_fails_at_unpack; [reflexivity | left; reflexivity].
Defined.

(** C4 (the code's behaviour): after [dummy = new Resistor], [dummy] is
    bound to an Attribute, so [dummy -> Resistor2] fails with a TypeError
    ("Can only retype objects") and the object keeps type Resistor; so
    does [dummy -> Capacitor]. *)
Theorem C4_retype_after_new_rejected :
  let r2 := Dizzy.visit_stmts (retype_prog "Resistor2") s_lib in
  let rc := Dizzy.visit_stmts (retype_prog "Capacitor") s_lib in
  lookup_in (snd r2) 0 (KStr "dummy") = Some (VAttr (TyClass RESISTOR_C) (VObject 0)) /\
  fst r2 = inl (AtoTypeError (TE_retype_not_object (KStr "dummy"))) /\
  obj_type (snd r2) 0 = Some RESISTOR_C /\
  fst rc = inl (AtoTypeError (TE_retype_not_object (KStr "dummy"))) /\
  obj_type (snd rc) 0 = Some RESISTOR_C.
Proof. repeat split; vm_compute; reflexivity. Qed.

(** C7 (the code's behaviour): declaring [pin p1] twice in one scope
    fails with NameConflict, yet walking the file that does so inside a
    block returns the root Object, with no error. *)
Theorem C7_conflict_raised_but_file_walk_returns_object :
  fst (Dizzy.visit_stmts [S_pindef (PD_name "p1"); S_pindef (PD_name "p1")] s_empty)
    = inl (AtoNameConflictError (KStr "p1")) /\
  Dizzy.visitFile_input pin_twice_file = DMObject [MODULE] [] [] [] [].
Proof. split; vm_compute; reflexivity. Qed.

(** C5 (the code's behaviour): each operand of a connect statement is
    resolved ([resolve_connectable]), unwrapped when it is an Attribute,
    and must then be an Interface-typed Object, or the statement fails
    with a TypeError; when both are, a fresh Link object of class Link
    with [start] and [end] set to them is created and appended to the
    anonymous members of the current scope, no name being bound.  But a
    numeric pin reference [a.2] is not resolved in [a]: its prefix [a] is
    visited and dropped, and the number is looked up in the current
    scope.  So [r_top.2 ~ out] fails with NameNotFound although [r_top]
    has a pin [2], and once the current scope declares its own [pin 2],
    it is that pin which [r_top.2] denotes. *)
Theorem C5_connect_links_two_interfaces :
  (forall c s v s1,
     Dizzy.resolve_connectable c s = (inr v, s1) ->
     Dizzy.visitConnectable c s =
       if is_interface_object s1 (Dizzy.unwrap_attr v)
       then (inr (Dizzy.unwrap_attr v), s1)
       else (inl (AtoTypeError TE_not_interface), s1)) /\
  (forall a b s e s1,
     Dizzy.visitConnectable a s = (inl e, s1) ->
     Dizzy.visitConnect_stmt a b s = (inl e, s1)) /\
  (forall a b s v0 s1 e s2,
     Dizzy.visitConnectable a s = (inr v0, s1) ->
     Dizzy.visitConnectable b s1 = (inl e, s2) ->
     Dizzy.visitConnect_stmt a b s = (inl e, s2)) /\
  (forall a b s v0 s1 v1 s2,
     Dizzy.visitConnectable a s = (inr v0, s1) ->
     Dizzy.visitConnectable b s1 = (inr v1, s2) ->
     let n := length (objects s2) in
     Dizzy.visitConnect_stmt a b s =
       (inr (VObject n),
        mkState (classes s2)
          (objects s2 ++ [mkObj LINK_C [] (Some v0) (Some v1)])
          (upd_nth (cur s2) (fun fr =>
             mkFrame (f_root fr) (f_parent fr) (f_table fr)
                     (f_anon fr ++ [VObject n])) (frames s2))
          (cur s2))) /\
  (forall n t s e s1,
     Dizzy.visitName_or_attr n s = (inl e, s1) ->
     Dizzy.resolve_connectable (CN_pinref n t) s = (inl e, s1)) /\
  (forall n t s sc k s1,
     Dizzy.visitName_or_attr n s = (inr (sc, k), s1) ->
     Dizzy.resolve_connectable (CN_pinref n t) s =
       match py_int t with
       | Some z => scope_get (cur s) (KInt z) s1
       | None => (inl (AtoTypeError (TE_not_integer t)), s1)
       end) /\
  (lookup_in s_rtop 0 (KStr "r_top") = Some (VAttr (TyClass RESISTOR_C) (VObject 3)) /\
   root_lookup s_rtop (VObject 3) (KInt 2) = Some (VObject 1) /\
   Dizzy.visitConnect_stmt (CN_pinref (NOA_name "r_top") "2") (CN_noa (NOA_name "out"))
     s_rtop = (inl (NameNotFound (KInt 2)), s_rtop)) /\
  (lookup_in s_rtop_local 0 (KInt 2) = Some (VObject 4) /\
   fst (Dizzy.resolve_connectable (CN_pinref (NOA_name "r_top") "2") s_rtop_local)
     = inr (VObject 4)).
Proof.
  split; [|split; [|split; [|split; [|split; [|split; [|split]]]]]].
  - intros c s v s1 H. unfold Dizzy.visitConnectable, bind at 1. rewrite H.
    unfold bind, get. destruct (is_interface_object s1 (Dizzy.unwrap_attr v));
      reflexivity.
  - intros a b s e s1 H. unfold Dizzy.visitConnect_stmt, bind at 1.
    now rewrite H.
  - intros a b s v0 s1 e s2 Ha Hb. unfold Dizzy.visitConnect_stmt, bind at 1.
    rewrite Ha. unfold bind at 1. now rewrite Hb.
  - intros a b s v0 s1 v1 s2 Ha Hb n.
    unfold Dizzy.visitConnect_stmt, bind at 1. rewrite Ha.
    unfold bind at 1. rewrite Hb.
    unfold bind, make_instance, get; simpl.
    unfold is_link_object, obj_type; simpl.
    rewrite nth_error_last; simpl.
    unfold ret, map_frames, map_objects; simpl.
    rewrite !upd_nth_last. reflexivity.
  - intros n t s e s1 H. unfold Dizzy.resolve_connectable, bind at 1.
    now rewrite H.
  - intros n t s sc k s1 H.
    assert (Hcur : cur s1 = cur s)
      by (pose proof (visitName_or_attr_cur n s) as C; now rewrite H in C).
    unfold Dizzy.resolve_connectable, bind at 1. rewrite H.
    unfold Dizzy.visitTotally_an_integer.
    destruct (py_int t) as [z|]; [|reflexivity].
    unfold bind, ret, cur_scope. now rewrite Hcur.
  - repeat split; vm_compute; reflexivity.
  - split; vm_compute; reflexivity.
Qed.

Lemma C5_witness :
  exists s', Dizzy.visitConnect_stmt (CN_noa (NOA_name "top")) (CN_noa (NOA_name "out")) s_sig
             = (inr (VObject 2), s').
Proof.
  pose proof (proj1 (proj2 (proj2 (proj2 C5_connect_links_two_interfaces)))
                (CN_noa (NOA_name "top")) (CN_noa (NOA_name "out")) s_sig
                (VObject 0) s_sig (VObject 1) s_sig eq_refl eq_refl) as H.
  eexists. exact H.
Defined.

(** C6 (the code's behaviour): in a dotted path, a segment bound to an
    Attribute that holds a Class (as [Alias = Resistor] makes it) fails
    with a TypeError naming the segment, because the check looks at the
    Attribute's [type_] (the tag [types.Class]) rather than its value; the
    same Class bound directly is descended into through a fresh scope
    rooted at it. *)
Theorem C6_attribute_holding_class_not_descended :
  let s1 := snd (Dizzy.visit_stmts alias_prog s_lib) in
  lookup_in s1 0 (KStr "Alias") = Some (VAttr TyClassTag (VClass RESISTOR_C)) /\
  fst (Dizzy.visitName_or_attr (NOA_attr ["Alias"; "x"]%string) s1)
    = inl (AtoTypeError (TE_not_obj_or_class (KStr "Alias"))) /\
  fst (Dizzy.visitName_or_attr (NOA_attr ["Resistor"; "x"]%string) s1)
    = inr (1, KStr "x") /\
  option_map f_root
    (nth_error (frames (snd (Dizzy.visitName_or_attr (NOA_attr ["Resistor"; "x"]%string) s1))) 1)
    = Some (Some (VClass RESISTOR_C)).
Proof. repeat split; vm_compute; reflexivity. Qed.

(** C8 (the code's behaviour): an import statement does not read the
    named file (beyond requiring a non-empty name): the imported path is
    resolved from the current scope; [*] fails with NotImplementedError;
    a final name already visible from the current scope fails with
    NameConflict; otherwise the value of the final name in the scope the
    path resolved to is bound in the current scope under that name,
    NameNotFound being raised when it has none.  So a plain undotted name
    is never imported: importing [R] from ['r.ato'] into an empty file
    scope fails with NameNotFound and binds nothing, whatever that file
    exports. *)
Theorem C8_import_reads_current_scope :
  (forall ft1 ft2 n s,
     Dizzy.visitString ft1 <> ""%string -> Dizzy.visitString ft2 <> ""%string ->
     Dizzy.visitImport_stmt ft1 n s = Dizzy.visitImport_stmt ft2 n s) /\
  (forall ft n s sc s1,
     Dizzy.visitName_or_attr n s = (inr (sc, KStr "*"), s1) ->
     Dizzy.visitString ft <> ""%string ->
     Dizzy.visitImport_stmt ft n s = (inl NotImplementedError, s1)) /\
  (forall ft n s sc k s1,
     Dizzy.visitName_or_attr n s = (inr (sc, k), s1) ->
     Dizzy.visitString ft <> ""%string -> key_falsy k = false -> k <> KStr "*" ->
     (lookup_in s1 (cur s) k <> None ->
        Dizzy.visitImport_stmt ft n s = (inl (AtoNameConflictError k), s1)) /\
     (lookup_in s1 (cur s) k = None -> lookup_in s1 sc k = None ->
        Dizzy.visitImport_stmt ft n s = (inl (NameNotFound k), s1)) /\
     (forall v, lookup_in s1 (cur s) k = None -> lookup_in s1 sc k = Some v ->
        Dizzy.visitImport_stmt ft n s =
          (inr tt, map_frames (upd_nth (cur s) (fun fr =>
             mkFrame (f_root fr) (f_parent fr) (f_table fr ++ [(k, v)]) (f_anon fr))) s1))) /\
  (forall ft t s, fst (Dizzy.visitImport_stmt ft (NOA_name t) s) <> inr tt) /\
  fst (Dizzy.visitImport_stmt "'r.ato'" (NOA_name "R") s_empty)
    = inl (NameNotFound (KStr "R")) /\
  lookup_in (snd (Dizzy.visitImport_stmt "'r.ato'" (NOA_name "R") s_empty)) 0 (KStr "R")
    = None.
Proof.
  split; [|split; [|split; [|split]]].
  - intros ft1 ft2 n s H1 H2. unfold Dizzy.visitImport_stmt, bind.
    destruct (Dizzy.visitName_or_attr n s) as [[e|[sc k]] s1]; [reflexivity|].
    apply String.eqb_neq in H1, H2. now rewrite H1, H2.
  - intros ft n s sc s1 Hn Hft. unfold Dizzy.visitImport_stmt, bind at 1.
    rewrite Hn. apply String.eqb_neq in Hft. now rewrite Hft.
  - intros ft n s sc k s1 Hn Hft Hk Hstar.
    assert (Hcur : cur s1 = cur s)
      by (pose proof (visitName_or_attr_cur n s) as C; now rewrite Hn in C).
    assert (Hs : key_eqb k (KStr "*") = false).
    { destruct k as [z|str]; [reflexivity|]. simpl.
      apply String.eqb_neq. intros ->. now apply Hstar. }
    apply String.eqb_neq in Hft.
    unfold Dizzy.visitImport_stmt, bind. rewrite Hn. cbv beta iota zeta.
    rewrite Hft, Hk, Hs.
    unfold cur_scope, scope_contains, scope_get, scope_set. rewrite Hcur.
    split; [|split].
    + intros Hin. destruct (lookup_in s1 (cur s) k); [reflexivity|congruence].
    + intros Hno Hsc. rewrite Hno. cbv beta iota. rewrite Hsc. reflexivity.
    + intros v Hno Hsc. rewrite Hno. cbv beta iota. rewrite Hsc. cbv beta iota.
      destruct (here_lookup s1 (cur s) k) as [w|] eqn:E; [|reflexivity].
      apply here_lookup_lookup_in in E. congruence.
  - intros ft t s. unfold Dizzy.visitImport_stmt, Dizzy.visitName_or_attr, bind,
      cur_scope, ret; simpl.
    destruct (String.eqb (Dizzy.visitString ft) ""); [cbn; congruence|].
    destruct (key_falsy (Dizzy.visitName t)); [cbn; congruence|].
    destruct (key_eqb (Dizzy.visitName t) (KStr "*")); [cbn; congruence|].
    unfold scope_contains, scope_get; simpl.
    destruct (lookup_in s (cur s) (Dizzy.visitName t)) eqn:E; cbn; [congruence|]. rewrite E; cbn; congruence.
  - split; vm_compute; reflexivity.
Qed.

(** C9 (as amended): a token where an integer pin index is required is
    read with [int()]: its value is returned when [int()] accepts the
    text, and otherwise the walk fails, with nothing changed, raising
    [AtoTypeError] ([Expected an integer]), the exception class the
    walker raises for its type mismatches too. *)
Theorem C9_integer_token_type_error :
  (forall text s,
     Dizzy.visitTotally_an_integer text s =
       match py_int text with
       | Some z => (inr (KInt z), s)
       | None => (inl (AtoTypeError (TE_not_integer text)), s)
       end) /\
  (forall text s e s',
     Dizzy.visitTotally_an_integer text s = (inl e, s') ->
     e = AtoTypeError (TE_not_integer text) /\ s' = s).
Proof.
  split.
  - intros text s. unfold Dizzy.visitTotally_an_integer.
    destruct (py_int text); reflexivity.
  - intros text s e s' H. unfold Dizzy.visitTotally_an_integer in H.
    destruct (py_int text); inversion H; subst; split; reflexivity.
Qed.

(** C9 (counterexample): [pin 1.5] fails with an [AtoTypeError], the
    class a connect statement raises for an operand that is not an
    Interface, not with an error of its own for a malformed literal. *)
Lemma C9_counterexample :
  Dizzy.visitPindef_stmt (PD_int "1.5") s_empty
    = (inl (AtoTypeError (TE_not_integer "1.5")), s_empty) /\
  fst (Dizzy.visitConnect_stmt (CN_noa (NOA_name "x")) (CN_noa (NOA_name "x"))
         (snd (Dizzy.visit_stmts [S_assign (NOA_name "x") (AS_number 3)] s_empty)))
    = inl (AtoTypeError TE_not_interface).
Proof. split; vm_compute; reflexivity. Qed.

(* ------------------------------------------------------------------ *)
(** ** Lemmas on bindings *)

Lemma key_eqb_refl k : key_eqb k k = true.
Proof. destruct k; simpl; [apply Z.eqb_refl | apply String.eqb_refl]. Qed.

Lemma key_eqb_eq a b : key_eqb a b = true -> a = b.
Proof.
  destruct a as [x|x], b as [y|y]; simpl; try discriminate; intros H.
  - now apply Z.eqb_eq in H as ->.
  - now apply String.eqb_eq in H as ->.
Qed.

Lemma assoc_app_some k l l' v : assoc k l = Some v -> assoc k (l ++ l') = Some v.
Proof.
  induction l as [|[k' w] r IH]; simpl; [discriminate|].
  destruct (key_eqb k k'); auto.
Qed.

Lemma assoc_app_none k l l' : assoc k l = None -> assoc k (l ++ l') = assoc k l'.
Proof.
  induction l as [|[k' w] r IH]; simpl; [reflexivity|].
  destruct (key_eqb k k'); [discriminate | exact IH].
Qed.

Lemma length_le_of_nth {A B} (l : list A) (l' : list B) :
  (forall i r, nth_error l i = Some r -> exists r', nth_error l' i = Some r') ->
  length l <= length l'.
Proof.
  intros H. destruct (length l) as [|n] eqn:E; [lia|].
  destruct (nth_error l n) as [r|] eqn:En.
  - destruct (H n r En) as [r' Hr'].
    assert (n < length l') by (apply nth_error_Some; congruence). lia.
  - apply nth_error_None in En. lia.
Qed.

Lemma class_lookup_mono cs cs' n m c k v :
  (forall i r, nth_error cs i = Some r -> nth_error cs' i = Some r) -> n <= m ->
  class_lookup cs n c k = Some v -> class_lookup cs' m c k = Some v.
Proof.
  intros Hcs. revert m c; induction n as [|n IH]; intros m c Hle H; [discriminate|].
  destruct m as [|m]; [lia|]. simpl in *.
  destruct (nth_error cs c) as [r|] eqn:E; [|discriminate].
  rewrite (Hcs _ _ E).
  destruct (assoc k (c_locals r)); [exact H|].
  destruct (c_super r); [|discriminate]. apply IH; [lia|exact H].
Qed.

Lemma root_lookup_keep s s' r k v :
  same_members s s' -> root_lookup s r k = Some v -> root_lookup s' r k = Some v.
Proof.
  intros [Hc Ho] H.
  assert (Hlen : length (classes s) <= length (classes s')).
  { apply length_le_of_nth. intros i r' E. exists r'. now apply Hc. }
  destruct r as [c|o| | | | | | |]; simpl in *; try discriminate.
  - eapply class_lookup_mono; eauto.
  - destruct (nth_error (objects s) o) as [ob|] eqn:E; [|discriminate].
    destruct (Ho _ _ E) as [ob' [E' [T L]]]. rewrite E', L, T.
    destruct (assoc k (o_locals ob)); [exact H|].
    eapply class_lookup_mono; eauto.
Qed.

Lemma root_lookup_map_frames g s r k :
  root_lookup (map_frames g s) r k = root_lookup s r k.
Proof. reflexivity. Qed.

Lemma same_members_refl s : same_members s s.
Proof. split; [auto|]. intros i r E; exists r; auto. Qed.

Lemma same_members_map_frames g s : same_members s (map_frames g s).
Proof. split; simpl; [auto|]. intros i r E; exists r; auto. Qed.

Lemma kb_refl s : keeps_bindings s s.
Proof.
  split; [apply same_members_refl|split; [|auto]].
  intros f fr E; exists fr; auto.
Qed.

Lemma kb_trans s1 s2 s3 :
  keeps_bindings s1 s2 -> keeps_bindings s2 s3 -> keeps_bindings s1 s3.
Proof.
  intros [[C1 O1] [F1 H1]] [[C2 O2] [F2 H2]].
  split; [split|split]; auto.
  - intros i r E. destruct (O1 _ _ E) as [r2 [E2 [T2 L2]]].
    destruct (O2 _ _ E2) as [r3 [E3 [T3 L3]]].
    exists r3; repeat split; congruence.
  - intros f fr E. destruct (F1 _ _ E) as [fr2 [E2 P2]].
    destruct (F2 _ _ E2) as [fr3 [E3 P3]]. exists fr3; split; congruence.
Qed.

(** A step that keeps members and leaves each scope's root, parent and
    table alone keeps every binding. *)
Lemma kb_of_frames s s' :
  same_members s s' ->
  (forall f fr, nth_error (frames s) f = Some fr ->
     exists fr', nth_error (frames s') f = Some fr' /\ f_root fr' = f_root fr /\
                 f_parent fr' = f_parent fr /\ f_table fr' = f_table fr) ->
  keeps_bindings s s'.
Proof.
  intros Hm Hf. split; [exact Hm|split].
  - intros f fr E. destruct (Hf _ _ E) as [fr' [E' [_ [P _]]]]. eauto.
  - intros f k v H. unfold here_lookup in *.
    destruct (nth_error (frames s) f) as [fr|] eqn:E; [|discriminate].
    destruct (Hf _ _ E) as [fr' [E' [R [_ T]]]]. rewrite E', T, R.
    destruct (assoc k (f_table fr)); [exact H|].
    destruct (f_root fr); [|discriminate]. eapply root_lookup_keep; eauto.
Qed.

Lemma kb_same_frames s s' :
  same_members s s' -> frames s' = frames s -> keeps_bindings s s'.
Proof.
  intros Hm Hf. apply kb_of_frames; [exact Hm|]. intros f fr E.
  exists fr. rewrite Hf. auto.
Qed.

Lemma kb_bind {A B} (m : M A) (k : A -> M B) :
  KeepsBindings m -> (forall a, KeepsBindings (k a)) -> KeepsBindings (bind m k).
Proof.
  intros Hm Hk s. unfold bind.
  specialize (Hm s). destruct (m s) as [[e|a] s'] eqn:E; simpl in *; auto.
  eapply kb_trans; [exact Hm|]. apply Hk.
Qed.

Lemma kb_ret {A} (a : A) : KeepsBindings (ret a).
Proof. intros s; apply kb_refl. Qed.

Lemma kb_raise {A} (e : err) : KeepsBindings (@raise A e).
Proof. intros s; apply kb_refl. Qed.

Lemma kb_get : KeepsBindings get.
Proof. intros s; apply kb_refl. Qed.

Lemma kb_cur_scope : KeepsBindings cur_scope.
Proof. intros s; apply kb_refl. Qed.

Lemma kb_scope_get f k : KeepsBindings (scope_get f k).
Proof. intros s; unfold scope_get; destruct (lookup_in s f k); apply kb_refl. Qed.

Lemma kb_scope_contains f k : KeepsBindings (scope_contains f k).
Proof. intros s; apply kb_refl. Qed.

Lemma kb_make_instance c : KeepsBindings (make_instance c).
Proof.
  intros s. apply kb_same_frames; [split|reflexivity]; simpl; auto.
  intros i r E. exists r. split; [now apply nth_error_app_prefix | auto].
Qed.

Lemma kb_make_subclass n p : KeepsBindings (make_subclass n p).
Proof.
  intros s; unfold make_subclass; destruct p; try apply kb_refl.
  apply kb_same_frames; [split|reflexivity]; simpl.
  - intros i r E; now apply nth_error_app_prefix.
  - intros i r E; exists r; auto.
Qed.

Lemma kb_new_scope_over x : KeepsBindings (new_scope_over x).
Proof.
  intros s. apply kb_of_frames; [apply same_members_map_frames|].
  intros f fr E. exists fr. simpl. split; [now apply nth_error_app_prefix | auto].
Qed.

Lemma kb_append_anon f v : KeepsBindings (append_anon f v).
Proof.
  intros s. apply kb_of_frames; [apply same_members_map_frames|].
  intros f' fr E. simpl.
  destruct (Nat.eq_dec f' f) as [->|Hne].
  - rewrite nth_error_upd_nth_same, E. eexists; simpl; auto.
  - rewrite nth_error_upd_nth_other by exact Hne. exists fr; auto.
Qed.

(** Setting a field of an object keeps its class and members. *)
Lemma kb_upd_object o g :
  (forall r, o_type (g r) = o_type r /\ o_locals (g r) = o_locals r) ->
  forall s, keeps_bindings s (map_objects (upd_nth o g) s).
Proof.
  intros Hg s. apply kb_same_frames; [split|reflexivity]; simpl; auto.
  intros i r E. destruct (Nat.eq_dec i o) as [->|Hne].
  - rewrite nth_error_upd_nth_same, E. exists (g r); simpl; auto.
  - rewrite nth_error_upd_nth_other by exact Hne. exists r; auto.
Qed.

Lemma kb_set_start o v : KeepsBindings (set_start o v).
Proof. intros s. apply kb_upd_object. auto. Qed.

Lemma kb_set_end o v : KeepsBindings (set_end o v).
Proof. intros s. apply kb_upd_object. auto. Qed.

(** [scope[k] = v] adds a name the scope did not bind, and so keeps every
    binding it had. *)
Lemma kb_scope_set f k v : KeepsBindings (scope_set f k v).
Proof.
  intros s; unfold scope_set.
  destruct (here_lookup s f k) as [w|] eqn:Hk; [apply kb_refl|]. simpl.
  split; [apply same_members_map_frames|split].
  - intros f' fr E. simpl. destruct (Nat.eq_dec f' f) as [->|Hne].
    + rewrite nth_error_upd_nth_same, E. eexists; simpl; auto.
    + rewrite nth_error_upd_nth_other by exact Hne. exists fr; auto.
  - intros f' k' v' H. unfold here_lookup in *. simpl.
    destruct (Nat.eq_dec f' f) as [->|Hne].
    + rewrite nth_error_upd_nth_same.
      destruct (nth_error (frames s) f) as [fr|] eqn:E; [|discriminate]. simpl.
      destruct (assoc k' (f_table fr)) as [u|] eqn:A.
      * rewrite (assoc_app_some _ _ _ _ A). exact H.
      * rewrite (assoc_app_none _ _ _ A). simpl.
        destruct (key_eqb k' k) eqn:Kq.
        -- apply key_eqb_eq in Kq. subst k'. rewrite A in Hk. congruence.
        -- exact H.
    + rewrite nth_error_upd_nth_other by exact Hne. exact H.
Qed.

Create HintDb kb.
#[local] Hint Resolve kb_ret kb_raise kb_get kb_cur_scope kb_scope_get
  kb_scope_contains kb_scope_set kb_append_anon kb_new_scope_over
  kb_make_instance kb_make_subclass kb_set_start kb_set_end : kb.

Ltac kb_steps :=
  repeat first
    [ progress (auto with kb)
    | apply kb_bind; [| intros ?]
    | match goal with
      | |- KeepsBindings (match ?x with _ => _ end) => destruct x
      | |- KeepsBindings (if ?b then _ else _) => destruct b
      end ].

Lemma kb_descend f path : KeepsBindings (Dizzy.descend f path).
Proof. revert f; induction path as [|a r IH]; intros f; simpl; kb_steps. Qed.
#[local] Hint Resolve kb_descend : kb.

Lemma kb_visitName_or_attr n : KeepsBindings (Dizzy.visitName_or_attr n).
Proof. unfold Dizzy.visitName_or_attr; destruct n; kb_steps. Qed.
#[local] Hint Resolve kb_visitName_or_attr : kb.

Lemma kb_visitPindef p : KeepsBindings (Dizzy.visitPindef_stmt p).
Proof. unfold Dizzy.visitPindef_stmt, Dizzy.visitTotally_an_integer; kb_steps. Qed.

Lemma kb_visitSignaldef t : KeepsBindings (Dizzy.visitSignaldef_stmt t).
Proof. unfold Dizzy.visitSignaldef_stmt; kb_steps. Qed.
#[local] Hint Resolve kb_visitPindef kb_visitSignaldef : kb.

Lemma kb_visitConnectable c : KeepsBindings (Dizzy.visitConnectable c).
Proof. unfold Dizzy.visitConnectable, Dizzy.resolve_connectable,
    Dizzy.visitTotally_an_integer; kb_steps. Qed.
#[local] Hint Resolve kb_visitConnectable : kb.

Lemma kb_visitNew n : KeepsBindings (Dizzy.visitNew_stmt n).
Proof. unfold Dizzy.visitNew_stmt; kb_steps. Qed.
#[local] Hint Resolve kb_visitNew : kb.

Lemma kb_visit_stmt_non_retype st :
  (forall a b, st <> S_retype a b) -> KeepsBindings (Dizzy.visit_stmt st).
Proof.
  intros Hst. destruct st; simpl.
  - kb_steps.
  - kb_steps.
  - unfold Dizzy.visitImport_stmt; kb_steps.
  - unfold Dizzy.visitConnect_stmt; kb_steps.
  - unfold Dizzy.visitAssign_stmt, Dizzy.visitAssignable; kb_steps.
  - exfalso; eapply Hst; reflexivity.
  - unfold Dizzy.visitWith_stmt; kb_steps.
  - unfold Dizzy.visitBlockdef, Dizzy.visitBlocktype, Dizzy.unpack_pair,
      Dizzy.index_key_by_scope, Dizzy.new_scope; kb_steps.
Qed.

(** [scope[k] = v] on a name the scope does not bind binds it. *)
Lemma scope_set_fresh s f k v fr :
  here_lookup s f k = None -> nth_error (frames s) f = Some fr ->
  exists s', scope_set f k v s = (inr tt, s') /\ here_lookup s' f k = Some v /\
    cur s' = cur s /\ classes s' = classes s /\ objects s' = objects s.
Proof.
  intros Hk E. unfold scope_set. rewrite Hk. eexists; split; [reflexivity|].
  split; [|repeat split].
  unfold here_lookup in *; simpl. rewrite nth_error_upd_nth_same, E. simpl.
  rewrite E in Hk. destruct (assoc k (f_table fr)) eqn:A; [discriminate|].
  rewrite (assoc_app_none _ _ _ A). simpl. now rewrite key_eqb_refl.
Qed.

(** A fresh instance is not seen by any scope whose root exists. *)
Lemma here_lookup_make_instance s c f k :
  roots_exist s ->
  here_lookup (map_objects (fun os => os ++ [mkObj c [] None None]) s) f k
  = here_lookup s f k.
Proof.
  intros Hr. unfold here_lookup; simpl.
  destruct (nth_error (frames s) f) as [fr|] eqn:E; [|reflexivity].
  destruct (assoc k (f_table fr)); [reflexivity|].
  destruct (f_root fr) as [r|] eqn:R; [|reflexivity].
  destruct r as [c'|o| | | | | | |]; try reflexivity.
  simpl. rewrite nth_error_app1 by exact (Hr f fr o E R). reflexivity.
Qed.

Lemma lookup_in_none_here s f k :
  lookup_in s f k = None -> here_lookup s f k = None.
Proof.
  intros H. destruct (here_lookup s f k) eqn:E; [|reflexivity].
  apply here_lookup_lookup_in in E. congruence.
Qed.

(** Declaring a fresh instance of [c] under a free name [k] of the
    current scope: the tail shared by pin and signal declarations. *)
Lemma declare_fresh s k c fr :
  roots_exist s -> nth_error (frames s) (cur s) = Some fr ->
  lookup_in s (cur s) k = None ->
  let n := length (objects s) in
  exists s',
    (b <- scope_contains (cur s) k ;;
     if b then raise (AtoNameConflictError k) else
     pin <- make_instance c ;; _ <- scope_set (cur s) k pin ;; ret pin) s
    = (inr (VObject n), s') /\
    obj_type s' n = Some c /\ here_lookup s' (cur s) k = Some (VObject n) /\
    cur s' = cur s.
Proof.
  intros Hr E Hno n.
  set (s1 := map_objects (fun os => os ++ [mkObj c [] None None]) s).
  assert (H1 : here_lookup s1 (cur s) k = None).
  { unfold s1. rewrite here_lookup_make_instance by exact Hr.
    now apply lookup_in_none_here. }
  destruct (scope_set_fresh s1 (cur s) k (VObject n) fr H1 E)
    as [s' [Eq [Hh [Hc [_ Ho]]]]].
  exists s'. unfold bind at 1, scope_contains. rewrite Hno.
  unfold bind, make_instance. fold s1. fold n. rewrite Eq.
  split; [reflexivity|]. split; [|split; [exact Hh|exact Hc]].
  unfold obj_type. rewrite Ho. simpl. unfold n. now rewrite nth_error_last.
Qed.

(** A pin declaration under a free, truthy name [k] makes a fresh Pin
    and binds it in the current scope. *)
Lemma pindef_fresh p k s fr :
  ((exists t, p = PD_name t /\ k = Dizzy.visitName t) \/
   (exists t z, p = PD_int t /\ py_int t = Some z /\ k = KInt z)) ->
  key_falsy k = false -> roots_exist s ->
  nth_error (frames s) (cur s) = Some fr ->
  lookup_in s (cur s) k = None ->
  exists s', Dizzy.visitPindef_stmt p s = (inr (VObject (length (objects s))), s') /\
    obj_type s' (length (objects s)) = Some PIN_C /\
    here_lookup s' (cur s) k = Some (VObject (length (objects s))) /\ cur s' = cur s.
Proof.
  intros Hk Hf Hr E Hno.
  destruct (declare_fresh s k PIN_C fr Hr E Hno) as [s' [Eq R]].
  exists s'. split; [|exact R]. rewrite <- Eq.
  destruct Hk as [[t [-> ->]] | [t [z [-> [Hz ->]]]]].
  - unfold Dizzy.visitPindef_stmt, bind at 1. simpl. rewrite Hf. reflexivity.
  - unfold Dizzy.visitPindef_stmt, Dizzy.visitTotally_an_integer, bind at 1.
    rewrite Hz. cbv beta iota delta [ret]. rewrite Hf. reflexivity.
Qed.

Lemma is_subclass_pin_interface s :
  builtins_loaded s -> is_subclass_of s PIN_C INTERFACE_C = true.
Proof.
  intros Hb. unfold is_subclass_of.
  assert (H3 : nth_error (classes s) 3 = Some (mkClass (KStr "Pin") (Some 2) []))
    by (apply Hb; reflexivity).
  assert (H5 : 5 < length (classes s)).
  { apply nth_error_Some. rewrite (Hb 5 (mkClass (KStr "Link") None []) eq_refl).
    discriminate. }
  unfold PIN_C, INTERFACE_C.
  destruct (length (classes s)) as [|[|m]]; [lia|lia|].
  cbn [subclass_chain orb Nat.eqb]. rewrite H3. reflexivity.
Qed.

Lemma builtins_loaded_keep s s' :
  keeps_bindings s s' -> builtins_loaded s -> builtins_loaded s'.
Proof. intros [[Hc _] _] Hb i r E. apply Hc, Hb, E. Qed.

Lemma kb_visitAssignable a : KeepsBindings (Dizzy.visitAssignable a).
Proof. unfold Dizzy.visitAssignable; kb_steps. Qed.

(* ------------------------------------------------------------------ *)
(** ** Further properties of the walker *)

(** A block definition never succeeds and never changes the walker
    state: a name already visible from the current scope fails with
    NameConflict; otherwise a block type other than [module] or
    [component] fails with [AtoCompileError], and those two fail with a
    Python TypeError when the block type is unpacked. *)
Theorem X3_blockdef_never_succeeds :
  forall name bt fr body s,
    Dizzy.visitBlockdef name bt fr body s =
    (inl (match lookup_in s (cur s) (Dizzy.visitName name) with
          | Some _ => AtoNameConflictError (Dizzy.visitName name)
          | None => if String.eqb bt "module" || String.eqb bt "component"
                    then PyTypeError else AtoCompileError
          end), s).
Proof.
  intros name bt fr body s.
  unfold Dizzy.visitBlockdef, bind, cur_scope, scope_contains.
  destruct (lookup_in s (cur s) (Dizzy.visitName name)); [reflexivity|].
  unfold Dizzy.visitBlocktype.
  destruct (String.eqb bt "module"); [reflexivity|].
  destruct (String.eqb bt "component"); reflexivity.
Qed.

(** A pin declaration ([pin 3] or [pin p]) under a truthy name [k]: when
    [k] is visible from the current scope (bound there or in an enclosing
    scope) it fails with NameConflict and changes nothing; otherwise it
    makes a fresh object of class Pin, binds it under [k] in the current
    scope and returns it. *)
Theorem X4_pindef_binds_fresh_pin :
  forall p k s fr,
    ((exists t, p = PD_name t /\ k = Dizzy.visitName t) \/
     (exists t z, p = PD_int t /\ py_int t = Some z /\ k = KInt z)) ->
    key_falsy k = false -> roots_exist s ->
    nth_error (frames s) (cur s) = Some fr ->
    (forall v, lookup_in s (cur s) k = Some v ->
       Dizzy.visitPindef_stmt p s = (inl (AtoNameConflictError k), s)) /\
    (lookup_in s (cur s) k = None ->
       exists s', Dizzy.visitPindef_stmt p s = (inr (VObject (length (objects s))), s') /\
         obj_type s' (length (objects s)) = Some PIN_C /\
         lookup_in s' (cur s) k = Some (VObject (length (objects s)))).
Proof.
  intros p k s fr Hk Hf Hr E. split.
  - intros v Hv.
    destruct Hk as [[t [-> ->]] | [t [z [-> [Hz ->]]]]].
    + unfold Dizzy.visitPindef_stmt, bind at 1. simpl. rewrite Hf.
      unfold bind, cur_scope, scope_contains. now rewrite Hv.
    + unfold Dizzy.visitPindef_stmt, Dizzy.visitTotally_an_integer, bind at 1.
      rewrite Hz. cbv beta iota delta [ret]. rewrite Hf.
      unfold bind, cur_scope, scope_contains. now rewrite Hv.
  - intros Hno.
    destruct (pindef_fresh p k s fr Hk Hf Hr E Hno) as [s' [Eq [T [H _]]]].
    exists s'. split; [exact Eq|split; [exact T|]].
    now apply here_lookup_lookup_in.
Qed.

Lemma roots_exist_s_empty : roots_exist s_empty.
Proof.
  intros f fr o H1 H2. destruct f as [|f]; simpl in H1.
  - inversion H1; subst; discriminate.
  - destruct f; discriminate.
Qed.

Lemma X4_witness :
  Dizzy.visitPindef_stmt (PD_int "7") s_empty
    = (inl (AtoNameConflictError (KInt 7)), s_empty) \/
  exists s', Dizzy.visitPindef_stmt (PD_int "7") s_empty = (inr (VObject 0), s') /\
    obj_type s' 0 = Some PIN_C /\ lookup_in s' 0 (KInt 7) = Some (VObject 0).
Proof.
  right.
  refine (proj2 (X4_pindef_binds_fresh_pin (PD_int "7") (KInt 7) s_empty
                   (mkFrame None None [] []) _ eq_refl roots_exist_s_empty eq_refl)
                eq_refl).
  right. exists "7"%string, 7%Z. split; [reflexivity|split; reflexivity].
Defined.

(** A signal declaration [signal t] under a truthy name: when the name is
    visible from the current scope it fails with NameConflict and changes
    nothing; otherwise it makes a fresh object of class Interface, binds
    it under the name in the current scope and returns it. *)
Theorem X5_signaldef_binds_fresh_interface :
  forall t s fr,
    key_falsy (Dizzy.visitName t) = false -> roots_exist s ->
    nth_error (frames s) (cur s) = Some fr ->
    (forall v, lookup_in s (cur s) (Dizzy.visitName t) = Some v ->
       Dizzy.visitSignaldef_stmt t s
       = (inl (AtoNameConflictError (Dizzy.visitName t)), s)) /\
    (lookup_in s (cur s) (Dizzy.visitName t) = None ->
       exists s', Dizzy.visitSignaldef_stmt t s = (inr (VObject (length (objects s))), s') /\
         obj_type s' (length (objects s)) = Some INTERFACE_C /\
         lookup_in s' (cur s) (Dizzy.visitName t) = Some (VObject (length (objects s)))).
Proof.
  intros t s fr Hf Hr E. split.
  - intros v Hv. unfold Dizzy.visitSignaldef_stmt. cbv zeta. rewrite Hf.
    unfold bind, cur_scope, scope_contains. now rewrite Hv.
  - intros Hno.
    destruct (declare_fresh s (Dizzy.visitName t) INTERFACE_C fr Hr E Hno)
      as [s' [Eq [T [H _]]]].
    exists s'. split; [|split; [exact T| now apply here_lookup_lookup_in]].
    rewrite <- Eq. unfold Dizzy.visitSignaldef_stmt. cbv zeta. rewrite Hf.
    reflexivity.
Qed.

Lemma X5_witness :
  exists s', Dizzy.visitSignaldef_stmt "vcc" s_empty = (inr (VObject 0), s') /\
    obj_type s' 0 = Some INTERFACE_C /\ lookup_in s' 0 (KStr "vcc") = Some (VObject 0).
Proof.
  exact (proj2 (X5_signaldef_binds_fresh_interface "vcc" s_empty
                  (mkFrame None None [] []) eq_refl roots_exist_s_empty eq_refl)
               eq_refl).
Defined.

(** Every statement but a retype, whether it succeeds or fails, keeps
    every scope with its parent, and every name a scope binds (in its
    own table or through the entity it is rooted at) stays bound there to
    the same value: no binding is ever removed or overwritten. *)
Theorem X8_statements_keep_scope_bindings :
  forall st s, (forall a b, st <> S_retype a b) ->
    (forall f fr, nth_error (frames s) f = Some fr ->
       exists fr', nth_error (frames (snd (Dizzy.visit_stmt st s))) f = Some fr' /\
                   f_parent fr' = f_parent fr) /\
    (forall f k v, here_lookup s f k = Some v ->
       here_lookup (snd (Dizzy.visit_stmt st s)) f k = Some v).
Proof.
  intros st s Hst.
  destruct (kb_visit_stmt_non_retype st Hst s) as [_ [Hf Hh]]. split; assumption.
Qed.

Lemma X8_witness :
  here_lookup (snd (Dizzy.visit_stmt (S_pindef (PD_name "Resistor")) s_lib)) 0
    (KStr "Resistor") = Some (VClass RESISTOR_C).
Proof.
  apply (proj2 (X8_statements_keep_scope_bindings (S_pindef (PD_name "Resistor")) s_lib
                  ltac:(intros a b; discriminate))).
  reflexivity.
Defined.

Lemma Qred_integral z d :
  Qred (Qmake (z * Z.pos d) d) = Qmake z 1.
Proof.
  rewrite (Qred_complete (Qmake (z * Z.pos d) d) (Qmake z 1)).
  - unfold Qred. destruct (Z.ggcd z 1) as [g [a b]] eqn:E.
    pose proof (Z.ggcd_gcd z 1) as G. rewrite E, Z.gcd_1_r in G. simpl in G.
    pose proof (Z.ggcd_correct_divisors z 1) as D. rewrite E in D.
    destruct D as [D1 D2]. subst g.
    assert (b = 1%Z) by lia. subst b. simpl. f_equal. lia.
  - unfold Qeq; simpl. lia.
Qed.

(** An assignment [x = ...] to a name [x] the current scope does not
    bind itself binds [x] in the current scope to an Attribute: for
    [x = new C] with [C] a Class, one whose type is [C] and whose value
    is the fresh instance of [C]; for [x = y] with [y] bound to an
    Attribute, a copy of that Attribute (same type, same value, not an
    Attribute of an Attribute); for a number whose value is integral,
    such as [3.0], the [int] with that value, typed [int]. *)
Theorem X6_assign_binds_attribute :
  forall x s fr,
    roots_exist s -> nth_error (frames s) (cur s) = Some fr ->
    here_lookup s (cur s) (Dizzy.visitName x) = None ->
    (forall y c, lookup_in s (cur s) (Dizzy.visitName y) = Some (VClass c) ->
       exists s', Dizzy.visitAssign_stmt (NOA_name x) (AS_new (NOA_name y)) s = (inr tt, s') /\
         obj_type s' (length (objects s)) = Some c /\
         lookup_in s' (cur s) (Dizzy.visitName x)
           = Some (VAttr (TyClass c) (VObject (length (objects s))))) /\
    (forall y ty v, lookup_in s (cur s) (Dizzy.visitName y) = Some (VAttr ty v) ->
       exists s', Dizzy.visitAssign_stmt (NOA_name x) (AS_noa (NOA_name y)) s = (inr tt, s') /\
         lookup_in s' (cur s) (Dizzy.visitName x) = Some (VAttr ty v)) /\
    (forall z d,
       exists s', Dizzy.visitAssign_stmt (NOA_name x) (AS_number (Qmake (z * Z.pos d) d)) s
                  = (inr tt, s') /\
         lookup_in s' (cur s) (Dizzy.visitName x) = Some (VAttr TyInt (VInt z))).
Proof.
  intros x s fr Hr E Hx. split; [|split].
  - intros y c Hy.
    set (s1 := map_objects (fun os => os ++ [mkObj c [] None None]) s).
    assert (Ha : Dizzy.visitAssignable (AS_new (NOA_name y)) s
                 = (inr (VObject (length (objects s))), s1)).
    { cbv beta iota delta [Dizzy.visitAssignable Dizzy.visitNew_stmt
        Dizzy.visitName_or_attr cur_scope ret bind scope_get].
      rewrite Hy. reflexivity. }
    assert (H1 : here_lookup s1 (cur s) (Dizzy.visitName x) = None)
      by (unfold s1; rewrite here_lookup_make_instance by exact Hr; exact Hx).
    assert (T1 : obj_type s1 (length (objects s)) = Some c)
      by (unfold obj_type, s1; simpl; now rewrite nth_error_last).
    destruct (scope_set_fresh s1 (cur s) (Dizzy.visitName x)
                (VAttr (TyClass c) (VObject (length (objects s)))) fr H1 E)
      as [s' [Eq [Hh [_ [_ Ho]]]]].
    exists s'.
    cbv beta iota delta [Dizzy.visitAssign_stmt Dizzy.visitName_or_attr cur_scope ret
      bind get].
    rewrite Ha, T1. split; [exact Eq|split].
    + unfold obj_type. rewrite Ho. exact T1.
    + now apply here_lookup_lookup_in.
  - intros y ty v Hy.
    destruct (scope_set_fresh s (cur s) (Dizzy.visitName x) (VAttr ty v) fr Hx E)
      as [s' [Eq [Hh _]]].
    exists s'.
    cbv beta iota delta [Dizzy.visitAssign_stmt Dizzy.visitName_or_attr
      Dizzy.visitAssignable cur_scope ret bind scope_get].
    rewrite Hy. split; [exact Eq|]. now apply here_lookup_lookup_in.
  - intros z d.
    destruct (scope_set_fresh s (cur s) (Dizzy.visitName x) (VAttr TyInt (VInt z)) fr Hx E)
      as [s' [Eq [Hh _]]].
    exists s'.
    cbv beta iota delta [Dizzy.visitAssign_stmt Dizzy.visitName_or_attr
      Dizzy.visitAssignable cur_scope ret bind].
    rewrite Qred_integral. simpl. split; [exact Eq|]. now apply here_lookup_lookup_in.
Qed.

Lemma X6_witness :
  exists s', Dizzy.visitAssign_stmt (NOA_name "r1") (AS_new (NOA_name "Resistor")) s_lib
             = (inr tt, s') /\
    obj_type s' 0 = Some RESISTOR_C /\
    lookup_in s' 0 (KStr "r1") = Some (VAttr (TyClass RESISTOR_C) (VObject 0)).
Proof.
  refine (proj1 (X6_assign_binds_attribute "r1" s_lib
     (mkFrame None None [(KStr "Resistor", VClass RESISTOR_C);
        (KStr "Resistor2", VClass RESISTOR2_C); (KStr "Capacitor", VClass CAPACITOR_C)] [])
     _ eq_refl eq_refl) "Resistor"%string RESISTOR_C eq_refl).
  intros f fr o H1 H2. destruct f as [|f]; simpl in H1.
  - inversion H1; subst; discriminate.
  - destruct f; discriminate.
Defined.

(** A name is never rebound by assignment: when the right-hand side
    evaluates to a value that can be wrapped in an Attribute but the
    target name is already bound in the current scope itself, the
    assignment fails with NameConflict, the binding is unchanged, and
    the state is the one the right-hand side left. *)
Theorem X7_assign_never_rebinds :
  forall x a s w v s1,
    here_lookup s (cur s) (Dizzy.visitName x) = Some w ->
    Dizzy.visitAssignable a s = (inr v, s1) ->
    (forall f, v <> VScope f) -> v <> VNone ->
    (forall o, v = VObject o -> obj_type s1 o <> None) ->
    Dizzy.visitAssign_stmt (NOA_name x) a s
      = (inl (AtoNameConflictError (Dizzy.visitName x)), s1) /\
    here_lookup s1 (cur s) (Dizzy.visitName x) = Some w.
Proof.
  intros x a s w v s1 Hw Ha Hsc Hnone Hobj.
  assert (Hw1 : here_lookup s1 (cur s) (Dizzy.visitName x) = Some w).
  { destruct (kb_visitAssignable a s) as [_ [_ Hh]]. rewrite Ha in Hh. now apply Hh. }
  split; [|exact Hw1].
  cbv beta iota delta [Dizzy.visitAssign_stmt Dizzy.visitName_or_attr cur_scope ret
    bind get].
  rewrite Ha.
  destruct v as [c|o|ty h|f|z|q|str|b|];
    try (exfalso; eapply Hsc; reflexivity); try (exfalso; now apply Hnone);
    try (unfold scope_set; now rewrite Hw1).
  destruct (obj_type s1 o) as [t|] eqn:T.
  - unfold scope_set. now rewrite Hw1.
  - exfalso. now apply (Hobj o).
Qed.

Lemma X7_witness :
  Dizzy.visitAssign_stmt (NOA_name "Resistor") (AS_bool "True") s_lib
    = (inl (AtoNameConflictError (KStr "Resistor")), s_lib) /\
  here_lookup s_lib 0 (KStr "Resistor") = Some (VClass RESISTOR_C).
Proof.
  apply (X7_assign_never_rebinds "Resistor" (AS_bool "True") s_lib (VClass RESISTOR_C)
           (VBool true) s_lib eq_refl eq_refl).
  - intros f; discriminate.
  - discriminate.
  - intros o H; discriminate.
Defined.

(** A connect statement is not atomic: a pin declared inline as its
    first operand ([pin 3 ~ x]) is bound in the current scope and stays
    bound when the second operand then fails, the statement failing with
    that operand's error. *)
Theorem X9_inline_pin_kept_when_connect_fails :
  forall p k b s fr,
    ((exists t, p = PD_name t /\ k = Dizzy.visitName t) \/
     (exists t z, p = PD_int t /\ py_int t = Some z /\ k = KInt z)) ->
    key_falsy k = false -> roots_exist s -> builtins_loaded s ->
    nth_error (frames s) (cur s) = Some fr ->
    lookup_in s (cur s) k = None ->
    exists s1,
      Dizzy.visitConnectable (CN_pindef p) s = (inr (VObject (length (objects s))), s1) /\
      lookup_in s1 (cur s) k = Some (VObject (length (objects s))) /\
      forall e s2, Dizzy.visitConnectable b s1 = (inl e, s2) ->
        Dizzy.visitConnect_stmt (CN_pindef p) b s = (inl e, s2) /\
        lookup_in s2 (cur s) k = Some (VObject (length (objects s))).
Proof.
  intros p k b s fr Hk Hf Hr Hb E Hno.
  destruct (pindef_fresh p k s fr Hk Hf Hr E Hno) as [s1 [Eq [T [Hh _]]]].
  assert (Hb1 : builtins_loaded s1).
  { apply (builtins_loaded_keep s); [|exact Hb].
    pose proof (kb_visitPindef p s) as K. rewrite Eq in K. exact K. }
  assert (Hc : Dizzy.visitConnectable (CN_pindef p) s
               = (inr (VObject (length (objects s))), s1)).
  { unfold Dizzy.visitConnectable, bind at 1. simpl. rewrite Eq.
    unfold bind, get. simpl. unfold is_interface_object. rewrite T.
    now rewrite is_subclass_pin_interface. }
  exists s1. split; [exact Hc|split; [now apply here_lookup_lookup_in|]].
  intros e s2 He. split.
  - unfold Dizzy.visitConnect_stmt, bind at 1. rewrite Hc.
    unfold bind at 1. now rewrite He.
  - apply here_lookup_lookup_in.
    destruct (kb_visitConnectable b s1) as [_ [_ K]]. rewrite He in K. now apply K.
Qed.

Lemma X9_witness :
  exists s1,
    Dizzy.visitConnectable (CN_pindef (PD_int "1")) s_empty = (inr (VObject 0), s1) /\
    lookup_in s1 0 (KInt 1) = Some (VObject 0) /\
    forall e s2, Dizzy.visitConnectable (CN_noa (NOA_name "gnd")) s1 = (inl e, s2) ->
      Dizzy.visitConnect_stmt (CN_pindef (PD_int "1")) (CN_noa (NOA_name "gnd")) s_empty
        = (inl e, s2) /\
      lookup_in s2 0 (KInt 1) = Some (VObject 0).
Proof.
  refine (X9_inline_pin_kept_when_connect_fails (PD_int "1") (KInt 1)
            (CN_noa (NOA_name "gnd")) s_empty (mkFrame None None [] []) _ eq_refl
            roots_exist_s_empty _ eq_refl eq_refl).
  - right. exists "1"%string, 1%Z. split; [reflexivity|split; reflexivity].
  - intros i r H. exact H.
Defined.

Lemma upd_nth_fixed {A} (l : list A) n (g : A -> A) r :
  nth_error l n = Some r -> g r = r -> upd_nth n g l = l.
Proof.
  revert n; induction l as [|x t IH]; intros [|n] H Hg; simpl in *; try discriminate.
  - inversion H; subst. now rewrite Hg.
  - f_equal. now apply IH.
Qed.

(** Retyping an object to the class it already has succeeds and changes
    nothing: the state is the one left by resolving the two names. *)
Theorem X10_retype_to_own_class_is_noop :
  forall a b s osc ok s1 tsc tk s2 o c,
    Dizzy.visitName_or_attr a s = (inr (osc, ok), s1) ->
    Dizzy.visitName_or_attr b s1 = (inr (tsc, tk), s2) ->
    lookup_in s2 osc ok = Some (VObject o) ->
    lookup_in s2 tsc tk = Some (VClass c) ->
    obj_type s2 o = Some c ->
    Dizzy.visitRetype_stmt a b s = (inr tt, s2).
Proof.
  intros a b s osc ok s1 tsc tk s2 o c Ha Hb Ho Hc T.
  rewrite (visitRetype_unfold a b s osc ok s1 tsc tk s2 Ha Hb), Ho, Hc, T,
    subclass_refl.
  unfold set_obj_type, map_objects, obj_type in *.
  destruct (nth_error (objects s2) o) as [r|] eqn:E; [|discriminate].
  simpl in T. inversion T; subst c.
  rewrite (upd_nth_fixed _ _ _ r E) by (destruct r; reflexivity).
  destruct s2; reflexivity.
Qed.

Lemma X10_witness :
  Dizzy.visitRetype_stmt (NOA_name "p") (NOA_name "Pin") s_pin_cls = (inr tt, s_pin_cls).
Proof.
  apply (X10_retype_to_own_class_is_noop (NOA_name "p") (NOA_name "Pin") s_pin_cls
           0 (KStr "p") s_pin_cls 0 (KStr "Pin") s_pin_cls 0 PIN_C);
    reflexivity.
Defined.

(** ** String literals *)

Lemma sql_head l : starts_with_quote (Dizzy.strip_quotes_left l) = false.
Proof.
  induction l as [|c r IH]; simpl; [reflexivity|].
  destruct (Ascii.eqb c (ascii_of_nat 34) || Ascii.eqb c (ascii_of_nat 39)) eqn:E;
    [exact IH|exact E].
Qed.

Lemma sql_fixed l : starts_with_quote l = false -> Dizzy.strip_quotes_left l = l.
Proof. destruct l as [|c r]; simpl; [reflexivity|]. intros H. unfold is_quote in H. now rewrite H. Qed.

Lemma sql_suffix l : exists p, l = p ++ Dizzy.strip_quotes_left l.
Proof.
  induction l as [|c r [p IH]]; simpl; [now exists []|].
  destruct (Ascii.eqb c (ascii_of_nat 34) || Ascii.eqb c (ascii_of_nat 39)).
  - exists (c :: p). simpl. now rewrite <- IH.
  - now exists [].
Qed.

(** The list function [visitString] applies. *)
Lemma unquote_ends l :
  let u := rev (Dizzy.strip_quotes_left (rev (Dizzy.strip_quotes_left l))) in
  starts_with_quote u = false /\ starts_with_quote (rev u) = false.
Proof.
  intros u. unfold u. rewrite rev_involutive. split; [|apply sql_head].
  set (A := Dizzy.strip_quotes_left l). set (B := Dizzy.strip_quotes_left (rev A)).
  destruct (sql_suffix (rev A)) as [p Hp]. fold B in Hp.
  destruct B as [|b r] eqn:EB; [reflexivity|].
  destruct (exists_last (l := b :: r) ltac:(discriminate)) as [b' [x Ex]].
  rewrite Ex, rev_app_distr. simpl.
  rewrite Ex, app_assoc in Hp.
  assert (HA : A = x :: rev (p ++ b')).
  { rewrite <- (rev_involutive A), Hp, rev_app_distr. reflexivity. }
  pose proof (sql_head l) as H. fold A in H. rewrite HA in H. exact H.
Qed.

Lemma unquote_fixed l :
  starts_with_quote l = false -> starts_with_quote (rev l) = false ->
  rev (Dizzy.strip_quotes_left (rev (Dizzy.strip_quotes_left l))) = l.
Proof.
  intros H1 H2. rewrite (sql_fixed l H1), (sql_fixed _ H2). apply rev_involutive.
Qed.

Lemma list_ascii_of_string_app s1 s2 :
  list_ascii_of_string (s1 ++ s2) = list_ascii_of_string s1 ++ list_ascii_of_string s2.
Proof. induction s1 as [|c s IH]; simpl; [reflexivity|]. now rewrite IH. Qed.

(** [visitString] strips every leading and trailing quote character of a
    string token: its result never starts or ends with a quote, so
    applying it twice is applying it once, and a text wrapped in one
    quote character at each end (of either kind) whose own ends are not
    quotes comes back unchanged. *)
Theorem X2_string_unquoting :
  (forall t, unquoted_ends (Dizzy.visitString t) = true) /\
  (forall t, Dizzy.visitString (Dizzy.visitString t) = Dizzy.visitString t) /\
  (forall s q1 q2, unquoted_ends s = true -> is_quote q1 = true -> is_quote q2 = true ->
     Dizzy.visitString (String q1 (s ++ String q2 "")) = s).
Proof.
  split; [|split].
  - intros t. unfold unquoted_ends, Dizzy.visitString.
    rewrite list_ascii_of_string_of_list_ascii.
    destruct (unquote_ends (list_ascii_of_string t)) as [H1 H2].
    now rewrite H1, H2.
  - intros t. unfold Dizzy.visitString at 1 2.
    rewrite list_ascii_of_string_of_list_ascii.
    destruct (unquote_ends (list_ascii_of_string t)) as [H1 H2].
    now rewrite unquote_fixed by assumption.
  - intros s q1 q2 Hs H1 H2. unfold unquoted_ends in Hs.
    apply andb_true_iff in Hs as [Hs1 Hs2]. apply negb_true_iff in Hs1, Hs2.
    unfold Dizzy.visitString. simpl. rewrite list_ascii_of_string_app. simpl.
    unfold is_quote in H1. rewrite H1.
    destruct (list_ascii_of_string s) as [|c r] eqn:E.
    + simpl. unfold is_quote in H2. rewrite H2. simpl.
      rewrite <- (string_of_list_ascii_of_string s), E. reflexivity.
    + simpl in Hs1. unfold is_quote in Hs1. cbn [Dizzy.strip_quotes_left app].
      rewrite Hs1.
      rewrite app_comm_cons, (rev_app_distr (c :: r) [q2]). simpl (rev [q2]).
      cbn [app Dizzy.strip_quotes_left]. unfold is_quote in H2. rewrite H2.
      rewrite (sql_fixed _ Hs2), rev_involutive.
      rewrite <- (string_of_list_ascii_of_string s), E. reflexivity.
Qed.

(** ** Integer names *)

(** C10: every name token goes through [visitName], which turns a text
    [int()] accepts into that integer: a single name used as a target is
    that key in the current scope, every segment of a dotted path is
    converted the same way, and a signal declared under such a name
    (other than [0]) is bound under the integer key, nothing being bound
    under a string key. *)
Theorem C10_integer_names_converted :
  (forall t z, py_int t = Some z -> Dizzy.visitName t = KInt z) /\
  (forall t s, Dizzy.visitName_or_attr (NOA_name t) s = (inr (cur s, Dizzy.visitName t), s)) /\
  (forall ts, Dizzy.visitAttr ts = map Dizzy.visitName ts) /\
  (forall t z s fr,
     py_int t = Some z -> z <> 0%Z -> roots_exist s ->
     nth_error (frames s) (cur s) = Some fr ->
     lookup_in s (cur s) (KInt z) = None ->
     exists s', Dizzy.visitSignaldef_stmt t s = (inr (VObject (length (objects s))), s') /\
       lookup_in s' (cur s) (KInt z) = Some (VObject (length (objects s))) /\
       forall str, here_lookup s' (cur s) (KStr str) = here_lookup s (cur s) (KStr str)).
Proof.
  split; [|split; [|split]].
  - intros t z H. unfold Dizzy.visitName. now rewrite H.
  - intros t s. reflexivity.
  - intros ts; reflexivity.
  - intros t z s fr Hz Hnz Hr E Hno.
    assert (Hn : Dizzy.visitName t = KInt z) by (unfold Dizzy.visitName; now rewrite Hz).
    assert (Hf : key_falsy (KInt z) = false)
      by (simpl; apply Z.eqb_neq; exact Hnz).
    set (n := length (objects s)).
    set (s1 := map_objects (fun os => os ++ [mkObj INTERFACE_C [] None None]) s).
    assert (H1 : here_lookup s1 (cur s) (KInt z) = None).
    { unfold s1. rewrite here_lookup_make_instance by exact Hr.
      now apply lookup_in_none_here. }
    exists (map_frames (upd_nth (cur s) (fun fr =>
              mkFrame (f_root fr) (f_parent fr) (f_table fr ++ [(KInt z, VObject n)])
                      (f_anon fr))) s1).
    split; [|split].
    + unfold Dizzy.visitSignaldef_stmt. cbv zeta. rewrite Hn, Hf.
      unfold bind at 1, cur_scope. unfold bind at 1, scope_contains. rewrite Hno.
      unfold bind, make_instance, scope_set. fold s1. fold n. rewrite H1.
      reflexivity.
    + apply here_lookup_lookup_in. unfold here_lookup; simpl.
      rewrite nth_error_upd_nth_same. unfold s1; simpl. rewrite E. simpl.
      unfold here_lookup in H1. unfold s1 in H1; simpl in H1. rewrite E in H1.
      destruct (assoc (KInt z) (f_table fr)) eqn:A; [discriminate|].
      rewrite (assoc_app_none _ _ _ A). simpl. now rewrite Z.eqb_refl.
    + intros str. rewrite <- (here_lookup_make_instance s INTERFACE_C (cur s) (KStr str) Hr).
      fold s1. unfold here_lookup; simpl.
      rewrite nth_error_upd_nth_same. unfold s1; simpl. rewrite E. simpl.
      destruct (assoc (KStr str) (f_table fr)) eqn:A.
      * now rewrite (assoc_app_some _ _ _ _ A).
      * rewrite (assoc_app_none _ _ _ A). reflexivity.
Qed.

Lemma C10_witness :
  exists s', Dizzy.visitSignaldef_stmt "12" s_empty = (inr (VObject 0), s') /\
    lookup_in s' 0 (KInt 12) = Some (VObject 0) /\
    forall str, here_lookup s' 0 (KStr str) = here_lookup s_empty 0 (KStr str).
Proof.
  exact (proj2 (proj2 (proj2 C10_integer_names_converted)) "12"%string 12%Z s_empty
           (mkFrame None None [] []) eq_refl ltac:(discriminate) roots_exist_s_empty
           eq_refl eq_refl).
Defined.
